(** * kagi-ken: the search-result extractor and the streaming-summary extractor

    A shallow embedding of [src/search.js] and [src/summarize.js] (the later
    revision, with the backward scan and the error-state check, and the
    earlier 1.3.0 revision beside it), followed by the properties of the two
    parsers and of the request/validation logic around them.

    Conventions of the embedding.
    - A JavaScript string is a [string]: a sequence of code units below 256.
    - A JavaScript value is a [JsVal]; a finite number is the rational it
      denotes, so [1.5] is [3 # 2].
    - A call that may throw returns a [Completion]: [Normal v] or [Throw e].
    - [search] and [summarize] run in [Async]: they thread the list of
      requests handed to [fetch], so that "before any network request" is a
      statement about that list.
    - What the code takes from outside the repository is a parameter:
      [JSON.parse], [fetch], [encodeURIComponent], number formatting, the
      [USER_AGENT] constant of [utils/http.js], and cheerio (the record
      [CheerioAPI] of the operations the code calls). *)

From Stdlib Require Import Ascii ZArith QArith Lia.
From stdpp Require Import base list option strings pretty.

Set Warnings "-register-all".
Local Close Scope Q_scope.
Local Open Scope Z_scope.

(* ================================================================== *)
(** ** JavaScript values                                               *)
(* ================================================================== *)

Module Js.

(** Numbers: the three non-finite doubles and the finite ones. *)
Inductive JsNum : Type :=
| NaN
| Infinity (negative : bool)
| Finite (q : Q).

Inductive JsVal : Type :=
| JUndefined
| JNull
| JBool (b : bool)
| JNum (n : JsNum)
| JStr (s : string)
| JArr (items : list JsVal)
| JObj (props : list (string * JsVal)).

Definition JInt (z : Z) : JsVal := JNum (Finite (inject_Z z)).

(** [typeof v] *)
Definition typeof (v : JsVal) : string :=
  match v with
  | JUndefined => "undefined"
  | JNull => "object"
  | JBool _ => "boolean"
  | JNum _ => "number"
  | JStr _ => "string"
  | JArr _ | JObj _ => "object"
  end.

Definition num_truthy (n : JsNum) : bool :=
  match n with
  | NaN => false
  | Infinity _ => true
  | Finite q => negb (Qeq_bool q (inject_Z 0))
  end.

Definition str_truthy (s : string) : bool :=
  match s with EmptyString => false | String _ _ => true end.

(** ToBoolean: what [!v], [v || w] and [if (v)] look at. *)
Definition truthy (v : JsVal) : bool :=
  match v with
  | JUndefined | JNull => false
  | JBool b => b
  | JNum n => num_truthy n
  | JStr s => str_truthy s
  | JArr _ | JObj _ => true
  end.

(** [a || b] *)
Definition or_else (a b : JsVal) : JsVal := if truthy a then a else b.

(** [a ?? b] *)
Definition nullish (v : JsVal) : bool :=
  match v with JUndefined | JNull => true | _ => false end.

Definition coalesce (a b : JsVal) : JsVal := if nullish a then b else a.

(** [v === "literal"] *)
Definition is_string (v : JsVal) (lit : string) : bool :=
  match v with JStr s => String.eqb s lit | _ => false end.

(** [array.includes(v)] for an array of string constants. *)
Definition includes (array : list string) (v : JsVal) : bool :=
  match v with JStr s => existsb (String.eqb s) array | _ => false end.

Fixpoint assoc (k : string) (props : list (string * JsVal)) : JsVal :=
  match props with
  | [] => JUndefined
  | (k', v) :: rest => if String.eqb k k' then v else assoc k rest
  end.

(** [v?.k] for a key [k] that no built-in prototype defines (every key the
    source reads is such a key): the own property of an object, and
    [undefined] on everything else, [null] and [undefined] included. *)
Definition get (v : JsVal) (k : string) : JsVal :=
  match v with
  | JObj props => assoc k props
  | _ => JUndefined
  end.

(** The characters of a value known to be a string. *)
Definition string_of (v : JsVal) : string :=
  match v with JStr s => s | _ => "" end.

(** [n < 1] *)
Definition num_lt_1 (n : JsNum) : bool :=
  match n with
  | NaN => false
  | Infinity negative => negative
  | Finite q => negb (Qle_bool (inject_Z 1) q)
  end.

(** [Number.isInteger(n)] *)
Definition Number_isInteger (n : JsNum) : bool :=
  match n with
  | Finite q => Z.eqb (Z.modulo (Qnum q) (Z.pos (Qden q))) 0
  | _ => false
  end.

(** The integer a number denotes, for a number that passed
    [Number_isInteger]. *)
Definition num_to_Z (n : JsNum) : Z :=
  match n with
  | Finite q => Z.div (Qnum q) (Z.pos (Qden q))
  | _ => 0
  end.


(** *** Errors and completions *)

Inductive ErrorClass : Type := Error | SyntaxError | ReferenceError | TypeError.

(** An error object: its class, its [message] and its [code] property
    ([undefined] unless something set it). *)
Record Exception : Type := mkException {
  ex_class : ErrorClass;
  ex_message : string;
  ex_code : JsVal
}.

(** [new Error(message)] *)
Definition new_Error (message : string) : Exception :=
  mkException Error message JUndefined.

(** [error instanceof SyntaxError] *)
Definition instanceof_SyntaxError (e : Exception) : bool :=
  match ex_class e with SyntaxError => true | _ => false end.

Inductive Completion (A : Type) : Type :=
| Normal (a : A)
| Throw (e : Exception).
Arguments Normal {A} a.
Arguments Throw {A} e.

Definition bindC {A B} (c : Completion A) (k : A → Completion B) : Completion B :=
  match c with Normal a => k a | Throw e => Throw e end.

(** [try { body } catch (error) { handler }] *)
Definition try_catch {A} (body : Completion A) (handler : Exception → Completion A)
  : Completion A :=
  match body with Normal a => Normal a | Throw e => handler e end.

(** Reading an identifier that no enclosing scope declares. *)
Definition unresolvable_reference {A} (name : string) : Completion A :=
  Throw (mkException ReferenceError (name +:+ " is not defined") JUndefined).

(** *** Conversion to a string

    A [JObj] is an ordinary object: its prototype is [Object.prototype] and
    its own properties are the data properties listed, none of them a
    function. An array has no own property besides its elements. *)

Fixpoint has_key (k : string) (props : list (string * JsVal)) : bool :=
  match props with
  | [] => false
  | (k', _) :: rest => String.eqb k k' || has_key k rest
  end.

(** The [TypeError] of a conversion that finds no primitive value (the
    message is the one of V8). *)
Definition conversion_error : Exception :=
  mkException TypeError "Cannot convert object to primitive value" JUndefined.

Section ToString.
Variable Number_toString : JsNum → string.

(** ToString, as template literals and [new Error(v)] apply it. On an
    object it calls [toString] and then [valueOf]: an own [toString]
    property shadows the inherited method and, being no function, is passed
    over; [valueOf], own or inherited, yields no primitive value; so the
    conversion throws. Without an own [toString] the inherited one answers
    "[object Object]". On an array it joins the conversions of the
    elements, [undefined] and [null] counting as empty. *)
Fixpoint ToString (v : JsVal) : Completion string :=
  match v with
  | JUndefined => Normal "undefined"
  | JNull => Normal "null"
  | JBool true => Normal "true"
  | JBool false => Normal "false"
  | JNum n => Normal (Number_toString n)
  | JStr s => Normal s
  | JArr items =>
      bindC
        ((fix each_item (items : list JsVal) : Completion (list string) :=
            match items with
            | [] => Normal []
            | x :: rest =>
                bindC (if nullish x then Normal "" else ToString x) (λ part,
                bindC (each_item rest) (λ parts,
                Normal (part :: parts)))
            end) items)
        (λ parts, Normal (String.concat "," parts))
  | JObj props =>
      if has_key "toString" props then Throw conversion_error
      else Normal "[object Object]"
  end.
End ToString.

(** *** Strings *)

(** WhiteSpace and LineTerminator code units below 256: TAB, LF, VT, FF, CR,
    SP and NBSP. *)
Definition is_white_space (c : ascii) : bool :=
  let n := N_of_ascii c in
  ((9 <=? n) && (n <=? 13) || (n =? 32) || (n =? 160))%N.

Fixpoint trimStart (s : string) : string :=
  match s with
  | EmptyString => EmptyString
  | String c s' => if is_white_space c then trimStart s' else s
  end.

Fixpoint trimEnd (s : string) : string :=
  match s with
  | EmptyString => EmptyString
  | String c s' =>
      let t := trimEnd s' in
      if is_white_space c && negb (str_truthy t) then EmptyString else String c t
  end.

(** [s.trim()] *)
Definition trim (s : string) : string := trimEnd (trimStart s).

(** A string that is empty or starts with a character that is not white
    space. *)
Definition no_leading_space (s : string) : Prop :=
  match s with EmptyString => True | String c _ => is_white_space c = false end.

(** [s.split(sep)] for a one-character separator. *)
Fixpoint split (sep : ascii) (s : string) : list string :=
  match s with
  | EmptyString => [EmptyString]
  | String c s' =>
      if Ascii.eqb c sep then EmptyString :: split sep s'
      else match split sep s' with
           | [] => [String c EmptyString]
           | w :: ws => String c w :: ws
           end
  end.

(** [s.startsWith(p)] *)
Definition startsWith (s p : string) : bool := String.prefix p s.

(** A regular expression of the shape [/^a1 a2 ... an/]: literals and [.]. *)
Inductive RegexAtom : Type := Lit (c : ascii) | Dot.

Definition is_line_terminator (c : ascii) : bool :=
  let n := N_of_ascii c in ((n =? 10) || (n =? 13))%N.

Definition atom_matches (a : RegexAtom) (c : ascii) : bool :=
  match a with
  | Lit c' => Ascii.eqb c c'
  | Dot => negb (is_line_terminator c)
  end.

Fixpoint match_at_start (re : list RegexAtom) (s : string) : option string :=
  match re with
  | [] => Some s
  | a :: re' =>
      match s with
      | EmptyString => None
      | String c s' => if atom_matches a c then match_at_start re' s' else None
      end
  end.

(** [s.replace(/^re/, "")] *)
Definition replace_at_start (re : list RegexAtom) (s : string) : string :=
  match match_at_start re s with Some rest => rest | None => s end.

Fixpoint lits (s : string) : list RegexAtom :=
  match s with
  | EmptyString => []
  | String c s' => Lit c :: lits s'
  end.

(** *** Code that mutates variables of an enclosing scope and may throw

    [Eff S A]: from the variables' values before to the completion and the
    values after. A throw keeps the mutations made before it. *)
Definition Eff (S A : Type) : Type := S → Completion A * S.

Definition resolve {S A} (a : A) : Eff S A := λ s, (Normal a, s).

Definition reject {S A} (e : Exception) : Eff S A := λ s, (Throw e, s).

Definition lift {S A} (c : Completion A) : Eff S A := λ s, (c, s).

Definition bindE {S A B} (m : Eff S A) (k : A → Eff S B) : Eff S B :=
  λ s, match m s with
       | (Normal a, s') => k a s'
       | (Throw e, s') => (Throw e, s')
       end.

Definition try_catchE {S A} (body : Eff S A) (handler : Exception → Eff S A) : Eff S A :=
  λ s, match body s with
       | (Normal a, s') => (Normal a, s')
       | (Throw e, s') => handler e s'
       end.

End Js.

Export Js.

Notation "'let*' x ':=' c 'in' k" := (bindC c (λ x, k))
  (at level 10, x name, c at level 100, k at level 200, only parsing).

Notation "'let!' x ':=' c 'in' k" := (bindE c (λ x, k))
  (at level 10, x name, c at level 100, k at level 200, only parsing).

(* ================================================================== *)
(** ** The world outside: requests, responses, the log of requests     *)
(* ================================================================== *)

Module Http.

(** What [fetch] is handed: the method, the URL, the query parameters set on
    a [URL] object, the headers and the form body. *)
Record Request : Type := mkRequest {
  req_method : string;
  req_url : string;
  req_searchParams : list (string * string);
  req_headers : list (string * string);
  req_body : option (list (string * string))
}.

(** A response: its status line, and how [await response.text()] completes
    (the body, or the error of a body that cannot be read). *)
Record Response : Type := mkResponse {
  status : Z;
  statusText : string;
  text : Completion string
}.

(** [response.ok]: the status is in the range 200 to 299. *)
Definition ok (response : Response) : bool :=
  (200 <=? status response) && (status response <=? 299).

(** An asynchronous call: a computation over the log of the requests sent;
    it settles as a completion (resolved or rejected). *)
Definition Async (A : Type) : Type := Eff (list Request) A.

(** [await fetch(request)] against a network [net]. *)
Definition fetch (net : Request → Completion Response) (request : Request)
  : Async Response :=
  λ log, (net request, log ++ [request]).

(** Run a call from an empty log: how it settles, and the requests sent. *)
Definition run {A} (m : Async A) : Completion A * list Request := m [].

End Http.

Export Http.

(** The handler both entry points end with:
    [if (error.code === "ENOTFOUND" || error.code === "ECONNREFUSED")
       throw new Error("Network error: Unable to connect to Kagi");
     throw error;] *)
Definition network_error_handler {A} (error : Exception) : Async A :=
  if is_string (ex_code error) "ENOTFOUND" || is_string (ex_code error) "ECONNREFUSED"
  then reject (new_Error "Network error: Unable to connect to Kagi")
  else reject error.

(** [if (!response.ok) { ... }] of both entry points. *)
Definition check_status (response : Response) : Async unit :=
  if negb (ok response) then
    if (status response =? 401) || (status response =? 403)
    then reject (new_Error "Invalid or expired session token")
    else reject (new_Error ("HTTP " +:+ pretty (status response) +:+ ": "
                            +:+ statusText response))
  else resolve ().

(* ================================================================== *)
(** ** summarize.js (the later revision)                               *)
(* ================================================================== *)

Module Summarize.

Definition SUPPORTED_LANGUAGES : list string :=
  [ "BG"; "CS"; "DA"; "DE"; "EL"; "EN"; "ES"; "ET"; "FI"; "FR";
    "HU"; "ID"; "IT"; "JA"; "KO"; "LT"; "LV"; "NB"; "NL"; "PL";
    "PT"; "RO"; "RU"; "SK"; "SL"; "SV"; "TR"; "UK"; "ZH"; "ZH-HANT" ].

Definition NUL : ascii := Ascii.zero.

(** [/^new_message.json:/]: the dot is not escaped in this revision. *)
Definition re_new_message_json : list RegexAtom :=
  lits "new_message" ++ [Dot] ++ lits "json:".

(** [/^final:/] *)
Definition re_final : list RegexAtom := lits "final:".

(** [streamData.split("\x00").filter((msg) => msg.trim())] *)
Definition split_messages (streamData : string) : list string :=
  filter (λ msg, str_truthy (trim msg) = true) (split NUL streamData).

(** The loop [for (let i = messages.length - 1; i >= 0; i--)], entered with
    [k = i + 1]; its value is [jsonString] when the loop ends ([None] is
    [null]). *)
Fixpoint scan_messages (messages : list string) (k : nat) : option string :=
  match k with
  | O => None
  | S i =>
      let msg := trim (nth i messages "") in
      if startsWith msg "new_message.json:" then
        Some (trim (replace_at_start re_new_message_json msg))
      else if startsWith msg "final:" then
        Some (trim (replace_at_start re_final msg))
      else scan_messages messages i
  end.

(** [!jsonString] for a [jsonString] that is [null] or a string. *)
Definition not_jsonString (jsonString : option string) : bool :=
  match jsonString with None => true | Some s => negb (str_truthy s) end.

(** [jsonString] once the scan and the fall-back to the last message are
    done: the text handed to the emptiness check and to [JSON.parse]. *)
Definition select_jsonString (messages : list string) : option string :=
  let jsonString := scan_messages messages (length messages) in
  if not_jsonString jsonString
  then Some (trim (nth (length messages - 1) messages ""))
  else jsonString.

(** The argument of [JSON.parse] as a string ([null] reads "null"). *)
Definition parse_argument (jsonString : option string) : string :=
  match jsonString with Some s => s | None => "null" end.

Section WithJSON.
(** [JSON.parse]: the value, or the message of the [SyntaxError] it throws. *)
Variable JSON_parse : string → string + JsVal.

Definition call_JSON_parse (text : string) : Completion JsVal :=
  match JSON_parse text with
  | inr v => Normal v
  | inl message => Throw (mkException SyntaxError message JUndefined)
  end.

Definition parseStreamingSummary_try (streamData : string) : Completion JsVal :=
  let messages := split_messages streamData in
  if Nat.eqb (length messages) 0 then Throw (new_Error "No summary data received")
  else
    let jsonString := select_jsonString messages in
    if not_jsonString jsonString then Throw (new_Error "Empty summary received")
    else call_JSON_parse (parse_argument jsonString).

(** The [catch] block. [jsonString] is declared by [let] inside the [try]
    block, so the template literal of the first branch reads an identifier
    that is not in scope there. *)
Definition parseStreamingSummary_catch (error : Exception) : Completion JsVal :=
  if instanceof_SyntaxError error then
    let* jsonString := unresolvable_reference (A := string) "jsonString" in
    Throw (new_Error ("Failed to parse summary JSON response: "
                      +:+ String.substring 0 300 jsonString))
  else Throw error.

Definition parseStreamingSummary (streamData : string) : Completion JsVal :=
  try_catch (parseStreamingSummary_try streamData) parseStreamingSummary_catch.

Variable Number_toString : JsNum → string.
Variable USER_AGENT : string.
Variable net : Request → Completion Response.

(** [const { type = "summary", language = "EN", isUrl = false } = options || {}] *)
Definition option_or_default (options : JsVal) (key : string) (default : JsVal) : JsVal :=
  match get (or_else options (JObj [])) key with
  | JUndefined => default
  | v => v
  end.

Definition summary_headers (token : string) (form : bool) : list (string * string) :=
  [ ("Accept", "application/vnd.kagi.stream");
    ("Connection", "keep-alive") ]
  ++ (if form then [("Content-Type", "application/x-www-form-urlencoded;charset=UTF-8")]
      else [])
  ++ [ ("Cookie", "kagi_session=" +:+ token);
       ("Host", "kagi.com");
       ("Pragma", "no-cache");
       ("Referer", "https://kagi.com/summarizer");
       ("User-Agent", USER_AGENT) ].

(** The request; [type] and [language] have passed the [includes] checks
    by then, so they are strings. *)
Definition summary_request (input token : string) (type language : JsVal) (isUrl : JsVal)
  : Request :=
  let fields (first : string) :=
    [ (first, input); ("stream", "1");
      ("target_language", string_of language);
      ("summary_type", string_of type) ] in
  if truthy isUrl then
    mkRequest "GET" "https://kagi.com/mother/summary_labs" (fields "url")
              (summary_headers token false) None
  else
    mkRequest "POST" "https://kagi.com/mother/summary_labs/" []
              (summary_headers token true) (Some (fields "text")).

(** The part of [summarize] after [parseStreamingSummary] returned. *)
Definition summary_of (parsedResponse : JsVal) : Completion JsVal :=
  if is_string (get parsedResponse "state") "error" then
    let errorMsg := or_else (get parsedResponse "reply")
                            (JStr "Unknown summarization error") in
    let* message := ToString Number_toString errorMsg in
    Throw (new_Error message)
  else
    let output :=
      or_else (get parsedResponse "md")
        (or_else (get parsedResponse "reply")
           (or_else (get (get parsedResponse "output_data") "markdown")
              (JStr ""))) in
    Normal (JObj [("data", JObj [("output", output)])]).

Definition summarize (input token options : JsVal) : Async JsVal :=
  if negb (truthy input) || negb (String.eqb (typeof input) "string") then
    reject (new_Error "Input is required and must be a string")
  else if negb (truthy token) || negb (String.eqb (typeof token) "string") then
    reject (new_Error "Session token is required and must be a string")
  else
    let type := option_or_default options "type" (JStr "summary") in
    let language := option_or_default options "language" (JStr "EN") in
    let isUrl := option_or_default options "isUrl" (JBool false) in
    if negb (includes ["summary"; "takeaway"] type) then
      reject (new_Error "Type must be 'summary' or 'takeaway'")
    else if negb (includes SUPPORTED_LANGUAGES language) then
      let sl := String.concat ", " SUPPORTED_LANGUAGES in
      let! code := lift (ToString Number_toString language) in
      reject (new_Error ("Unsupported language code '" +:+ code
                         +:+ "'. Supported languages: " +:+ sl))
    else
      try_catchE
        (let! response :=
           fetch net (summary_request (string_of input) (string_of token)
                                      type language isUrl) in
         let! _ := check_status response in
         let! streamData := lift (text response) in
         let! parsedResponse := lift (parseStreamingSummary streamData) in
         lift (summary_of parsedResponse))
        network_error_handler.

End WithJSON.

End Summarize.

(* ================================================================== *)
(** ** summarize.js (release 1.3.0): the parser and the output field   *)
(* ================================================================== *)

Module Summarize_1_3_0.

Import Summarize.

(** [/^new_message\.json:/]: the dot is escaped in this revision. *)
Definition re_new_message_json : list RegexAtom := lits "new_message.json:".

Section WithJSON.
Variable JSON_parse : string → string + JsVal.

Definition parseStreamingSummary_try (streamData : string) : Completion JsVal :=
  let messages := split_messages streamData in
  if Nat.eqb (length messages) 0 then Throw (new_Error "No summary data received")
  else
    let lastMessage := trim (nth (length messages - 1) messages "") in
    let jsonString :=
      trim (replace_at_start re_new_message_json
              (replace_at_start re_final lastMessage)) in
    if negb (str_truthy jsonString) then Throw (new_Error "Empty summary received")
    else call_JSON_parse JSON_parse jsonString.

Definition parseStreamingSummary_catch (error : Exception) : Completion JsVal :=
  if instanceof_SyntaxError error
  then Throw (new_Error "Failed to parse summary JSON response")
  else Throw (new_Error "Failed to parse summary response").

Definition parseStreamingSummary (streamData : string) : Completion JsVal :=
  try_catch (parseStreamingSummary_try streamData) parseStreamingSummary_catch.

End WithJSON.

(** [parsedResponse?.output_data?.markdown ?? parsedResponse?.md ?? ""] *)
Definition summary_of (parsedResponse : JsVal) : JsVal :=
  let output :=
    coalesce (get (get parsedResponse "output_data") "markdown")
      (coalesce (get parsedResponse "md") (JStr "")) in
  JObj [("data", JObj [("output", output)])].

End Summarize_1_3_0.

(* ================================================================== *)
(** ** search.js                                                       *)
(* ================================================================== *)

Module Search.

(** The cheerio object [$] of a loaded document, as the code uses it
    ([dollar] below). Every call may throw: the source wraps each of them in
    a [try]. An element is whatever [.each] hands to its callback. *)
Record CheerioAPI (Elem : Type) : Type := mkCheerio {
  (** [$(selector)]: the matched elements, in document order *)
  select : string → Completion (list Elem);
  (** [$(element).find(selector)] *)
  find : Elem → string → Completion (list Elem);
  (** [$(element).text()] *)
  elem_text : Elem → Completion string;
  (** [$(element).attr(name)]; [None] is [undefined] *)
  elem_attr : Elem → string → Completion (option string)
}.
Arguments mkCheerio {Elem}.
Arguments select {Elem}.
Arguments find {Elem}.
Arguments elem_text {Elem}.
Arguments elem_attr {Elem}.

Section WithCheerio.
Context {Elem : Type}.

(** [.first()] *)
Definition first (selection : list Elem) : list Elem := take 1 selection.

(** [.text()] of a selection: the texts of its elements, concatenated. *)
Fixpoint text_of (dollar : CheerioAPI Elem) (selection : list Elem) : Completion string :=
  match selection with
  | [] => Normal ""
  | element :: rest =>
      let* t := elem_text dollar element in
      let* ts := text_of dollar rest in
      Normal (t +:+ ts)
  end.

(** [.attr(name)] of a selection: the attribute of its first element. *)
Definition attr_of (dollar : CheerioAPI Elem) (selection : list Elem) (name : string) : Completion (option string) :=
  match selection with
  | [] => Normal None
  | element :: _ => elem_attr dollar element name
  end.

(** [!url] for a [url] that is [undefined] or a string. *)
Definition not_url (url : option string) : bool :=
  match url with None => true | Some s => negb (str_truthy s) end.

(** [text || null] *)
Definition or_null (s : string) : JsVal :=
  if str_truthy s then JStr s else JNull.

(** [text || ""] *)
Definition or_empty (s : string) : string :=
  if str_truthy s then s else "".

(** The object literal both extractors return. *)
Definition web_result (url title snippet : string) (published : JsVal) : JsVal :=
  JObj [ ("t", JInt 0);
         ("url", JStr url);
         ("title", JStr title);
         ("snippet", JStr (or_empty snippet));
         ("published", published) ].

(** The [try] block of [extractSearchResult] and of [extractGroupedResult]:
    the two differ in the selector of the title link only. [None] is the
    [null] they return. *)
Definition extract_try (title_selector : string) (dollar : CheerioAPI Elem) (element : Elem)
  : Completion (option JsVal) :=
  let* found := find dollar element title_selector in
  let titleLink := first found in
  let* title_text := text_of dollar titleLink in
  let title := trim title_text in
  let* url := attr_of dollar titleLink "href" in
  let* desc := find dollar element ".__sri-desc" in
  let* snippet_text := text_of dollar desc in
  let snippet := trim snippet_text in
  let* time := find dollar element ".__sri-time" in
  let* published_text := text_of dollar (first time) in
  let published := or_null (trim published_text) in
  if negb (str_truthy title) || not_url url then Normal None
  else
    match url with
    | Some url => Normal (Some (web_result url title snippet published))
    | None => Normal None
    end.

(** [try { ... } catch (error) { return null; }] *)
Definition or_null_on_throw (body : Completion (option JsVal)) : option JsVal :=
  match body with Normal result => result | Throw _ => None end.

Definition extractSearchResult (dollar : CheerioAPI Elem) (element : Elem) : option JsVal :=
  or_null_on_throw (extract_try ".__sri_title_link" dollar element).

Definition extractGroupedResult (dollar : CheerioAPI Elem) (element : Elem) : option JsVal :=
  or_null_on_throw (extract_try ".__srgi-title a" dollar element).

(** [.each(callback)] over the elements of a selection. The callback works on
    the variables [S] of the enclosing function; it returns [false] to stop
    the iteration ([Normal false]) and anything else to go on. *)
Fixpoint each {S} (elements : list Elem) (callback : Elem → Eff S bool) : Eff S unit :=
  match elements with
  | [] => resolve ()
  | element :: rest =>
      λ s, match callback element s with
           | (Normal true, s') => each rest callback s'
           | (Normal false, s') => (Normal (), s')
           | (Throw e, s') => (Throw e, s')
           end
  end.

(** The callback of [extractRelatedSearches]; the variable it pushes to is
    [relatedSearches]. *)
Definition related_callback (dollar : CheerioAPI Elem) (element : Elem) : Eff (list string) bool :=
  λ relatedSearches,
    match elem_text dollar element with
    | Throw e => (Throw e, relatedSearches)
    | Normal t =>
        let term := trim t in
        if str_truthy term then (Normal true, relatedSearches ++ [term])
        else (Normal true, relatedSearches)
    end.

(** The [try] block of [extractRelatedSearches]. *)
Definition extractRelatedSearches_try (dollar : CheerioAPI Elem) : Eff (list string) unit :=
  let! spans := lift (select dollar ".related-searches a span") in
  each spans (related_callback dollar).

(** The [catch] block is empty, and [relatedSearches] is returned as the
    [try] block left it. *)
Definition extractRelatedSearches (dollar : CheerioAPI Elem) : list string :=
  let relatedSearches : list string := [] in
  snd (extractRelatedSearches_try dollar relatedSearches).

(** The variables of [parseSearchResults] that its callbacks change. *)
Record Vars : Type := mkVars {
  results : list JsVal;
  resultCount : Z
}.

(** The callback of the two result loops, for the extractor [extract]. *)
Definition result_callback (extract : Elem → option JsVal) (limit : Z) (element : Elem)
  : Eff Vars bool :=
  λ vars,
    if limit <=? resultCount vars then (Normal false, vars)
    else
      match extract element with
      | Some result =>
          (Normal true, mkVars (results vars ++ [result]) (resultCount vars + 1))
      | None => (Normal true, vars)
      end.

Definition related_record (relatedSearches : list string) : JsVal :=
  JObj [ ("t", JInt 1); ("list", JArr (map JStr relatedSearches)) ].

Definition parseSearchResults_try (dollar : CheerioAPI Elem) (limit : Z) : Eff Vars (list JsVal) :=
  let! primary := lift (select dollar ".search-result") in
  let! _ := each primary (result_callback (extractSearchResult dollar) limit) in
  let! _ := (λ vars,
               if resultCount vars <? limit then
                 (let! grouped := lift (select dollar ".sr-group .__srgi") in
                  each grouped (result_callback (extractGroupedResult dollar) limit)) vars
               else (Normal (), vars)) in
  let relatedSearches := extractRelatedSearches dollar in
  λ vars,
    if (0 <? length relatedSearches)%nat
    then (Normal (results vars ++ [related_record relatedSearches]), vars)
    else (Normal (results vars), vars).

Definition parseSearchResults (dollar : CheerioAPI Elem) (limit : Z) : Completion (list JsVal) :=
  try_catch
    (fst (parseSearchResults_try dollar limit (mkVars [] 0)))
    (λ _, Throw (new_Error "Failed to parse search results - unexpected HTML structure")).

(** [cheerio.load], [encodeURIComponent], the constant of [utils/http.js]
    and the network. *)
Variable load : string → CheerioAPI Elem.
Variable encodeURIComponent : string → string.
Variable USER_AGENT : string.
Variable net : Request → Completion Response.

Definition search_request (query token : string) : Request :=
  mkRequest "GET" ("https://kagi.com/html/search?q=" +:+ encodeURIComponent query) []
            [ ("User-Agent", USER_AGENT); ("Cookie", "kagi_session=" +:+ token) ]
            None.

(** [limit !== undefined &&
     (typeof limit !== "number" || limit < 1 || !Number.isInteger(limit))] *)
Definition bad_limit (limit : JsVal) : bool :=
  match limit with
  | JUndefined => false
  | JNum n => num_lt_1 n || negb (Number_isInteger n)
  | _ => true
  end.

Definition limit_value (limit : JsVal) : Z :=
  match limit with JNum n => num_to_Z n | _ => 0 end.

(** [search(query, token, limit = 10)]; a [limit] that is [undefined] is an
    omitted one. *)
Definition search (query token limit : JsVal) : Async JsVal :=
  let limit := match limit with JUndefined => JInt 10 | _ => limit end in
  if negb (truthy query) || negb (String.eqb (typeof query) "string") then
    reject (new_Error "Search query is required and must be a string")
  else if negb (truthy token) || negb (String.eqb (typeof token) "string") then
    reject (new_Error "Session token is required and must be a string")
  else if bad_limit limit then
    reject (new_Error "Limit must be a positive integer")
  else
    try_catchE
      (let! response :=
         fetch net (search_request (string_of query) (string_of token)) in
       let! _ := check_status response in
       let! html := lift (text response) in
       let! results := lift (parseSearchResults (load html) (limit_value limit)) in
       resolve (JObj [("data", JArr results)]))
      network_error_handler.

End WithCheerio.

End Search.

(* ================================================================== *)
(** ** Documents and parsers for the examples                          *)
(* ================================================================== *)

(** A small document tree with class and tag selectors joined by the
    descendant combinator: enough of cheerio to run the extractors on
    fixtures. None of its calls throws. *)
Module Dom.

Import Search.

Inductive Node : Type :=
| TextNode (data : string)
| Element (name : string) (attribs : list (string * string)) (children : list Node).

Fixpoint attrib (attribs : list (string * string)) (name : string) : option string :=
  match attribs with
  | [] => None
  | (k, v) :: rest => if String.eqb k name then Some v else attrib rest name
  end.

Definition has_class (n : Node) (c : string) : bool :=
  match n with
  | Element _ attribs _ =>
      match attrib attribs "class" with
      | Some v => existsb (String.eqb c) (split " " v)
      | None => false
      end
  | TextNode _ => false
  end.

(** One compound selector: [.class] or a tag name. *)
Definition matches (token : string) (n : Node) : bool :=
  match token, n with
  | String "." c, _ => has_class n c
  | _, Element name _ _ => String.eqb name token
  | _, TextNode _ => false
  end.

(** The selector's remaining compounds (innermost first) against the
    ancestors (nearest first). *)
Fixpoint matches_ancestors (tokens : list string) (ancestors : list Node) : bool :=
  match tokens, ancestors with
  | [], _ => true
  | _ :: _, [] => false
  | token :: tokens', a :: ancestors' =>
      if matches token a then matches_ancestors tokens' ancestors'
      else matches_ancestors tokens ancestors'
  end.

Definition matches_selector (tokens : list string) (ancestors : list Node) (n : Node) : bool :=
  match tokens with
  | [] => false
  | token :: tokens' => matches token n && matches_ancestors tokens' ancestors
  end.

(** [n] and its descendants that match, in document order. *)
Fixpoint matching (tokens : list string) (ancestors : list Node) (n : Node) : list Node :=
  match n with
  | TextNode _ => []
  | Element _ _ children =>
      (if matches_selector tokens ancestors n then [n] else [])
      ++ flat_map (matching tokens (n :: ancestors)) children
  end.

Definition tokens_of (selector : string) : list string := rev (split " " selector).

Fixpoint text_content (n : Node) : string :=
  match n with
  | TextNode data => data
  | Element _ _ children => String.concat "" (map text_content children)
  end.

Definition children_of (n : Node) : list Node :=
  match n with Element _ _ children => children | TextNode _ => [] end.

Definition attribs_of (n : Node) : list (string * string) :=
  match n with Element _ attribs _ => attribs | TextNode _ => [] end.

(** The elements a selector matches in a document. *)
Definition selected (roots : list Node) (selector : string) : list Node :=
  flat_map (matching (tokens_of selector) []) roots.

(** The [$] of a document given by its top-level nodes. *)
Definition api (roots : list Node) : CheerioAPI Node :=
  mkCheerio
    (λ selector, Normal (selected roots selector))
    (λ element selector,
       Normal (flat_map (matching (tokens_of selector) [element]) (children_of element)))
    (λ element, Normal (text_content element))
    (λ element name, Normal (attrib (attribs_of element) name)).

(** A [$] that behaves as [dollar], except that [.text()] throws on the
    elements [broken] picks and [$(selector)] throws for the selectors
    [unselectable] picks. *)
Definition with_faults {Elem} (broken : Elem → bool) (unselectable : string → bool)
    (dollar : CheerioAPI Elem) : CheerioAPI Elem :=
  let fault := mkException TypeError "Cannot read properties of undefined" JUndefined in
  mkCheerio
    (λ selector, if unselectable selector then Throw fault else select dollar selector)
    (find dollar)
    (λ element, if broken element then Throw fault else elem_text dollar element)
    (elem_attr dollar).

(** *** Fixtures *)

Definition el (name class : string) (children : list Node) : Node :=
  Element name [("class", class)] children.

Definition link (class href label : string) : Node :=
  Element "a" [("class", class); ("href", href)] [TextNode label].

(** A primary result: title link, description and, when [time] is not
    empty, a timestamp. *)
Definition primary (href title desc time : string) : Node :=
  el "div" "search-result"
    ([ link "__sri_title_link" href title;
       el "div" "__sri-desc" [TextNode desc] ]
     ++ (if str_truthy time then [el "span" "__sri-time" [TextNode time]] else [])).

(** A primary result whose title link has no [href]. *)
Definition primary_without_href (title : string) : Node :=
  el "div" "search-result"
    [ Element "a" [("class", "__sri_title_link")] [TextNode title] ].

Definition grouped (href title desc : string) : Node :=
  el "div" "__srgi"
    [ el "h3" "__srgi-title" [Element "a" [("href", href)] [TextNode title]];
      el "div" "__sri-desc" [TextNode desc] ].

Definition related (terms : list string) : Node :=
  el "div" "related-searches"
    (map (λ term, Element "a" [] [Element "span" [] [TextNode term]]) terms).

(** Two primary results, one grouped result and three related terms. *)
Definition fixture : list Node :=
  [ el "div" "results"
      [ primary "https://a.example/" " First " "about a" "2 days ago";
        primary "https://b.example/" "Second" "" "";
        el "div" "sr-group" [ grouped "https://c.example/" "Third" "about c" ];
        related ["one"; "two"; "three"] ] ].

(** The same with a result that has no link put first. *)
Definition fixture_with_gap : list Node :=
  [ el "div" "results"
      [ primary_without_href "No link";
        primary "https://a.example/" " First " "about a" "2 days ago";
        primary "https://b.example/" "Second" "" "";
        el "div" "sr-group" [ grouped "https://c.example/" "Third" "about c" ];
        related ["one"; "two"; "three"] ] ].

(** Results none of which has a link, and one related term. *)
Definition fixture_all_fail : list Node :=
  [ primary_without_href "No link"; primary_without_href "Nor here";
    related ["one"] ].

(** The fixture read through a [$] whose [.text()] throws on the second
    related span, one whose selection of the related spans throws, and one
    whose selection of the primary results throws. *)
Definition broken_span : CheerioAPI Node :=
  with_faults (λ n, String.eqb (text_content n) "two") (λ _, false) (api fixture).

Definition related_unselectable : CheerioAPI Node :=
  with_faults (λ _, false) (String.eqb ".related-searches a span") (api fixture).

Definition primary_unselectable : CheerioAPI Node :=
  with_faults (λ _, false) (String.eqb ".search-result") (api fixture).

(** The fixture read through a [$] whose selection of the grouped results
    throws. *)
Definition grouped_unselectable : CheerioAPI Node :=
  with_faults (λ _, false) (String.eqb ".sr-group .__srgi") (api fixture).

End Dom.

(** [JSON.parse] and number formatting for the examples. *)
Module Samples.

Definition dq : string := String (ascii_of_nat 34) EmptyString.

(** [quoted s] is [s] between double quotes. *)
Definition quoted (s : string) : string := dq +:+ s +:+ dq.

(** The text of an object whose values are strings. *)
Fixpoint members (props : list (string * string)) : string :=
  match props with
  | [] => ""
  | [(k, v)] => quoted k +:+ ":" +:+ quoted v
  | (k, v) :: rest => quoted k +:+ ":" +:+ quoted v +:+ "," +:+ members rest
  end.

Definition object_text (props : list (string * string)) : string :=
  "{" +:+ members props +:+ "}".

Definition object_value (props : list (string * string)) : JsVal :=
  JObj (map (λ kv, (fst kv, JStr (snd kv))) props).

(** The payloads the examples use. *)
Definition payloads : list (list (string * string)) :=
  [ [("md", "X")];
    [("reply", "Z")];
    [("md", ""); ("reply", "R")];
    [("state", "error"); ("reply", "quota exceeded")];
    [("state", "error"); ("reply", "")];
    [("state", "error")] ].

(** [JSON.parse] on the texts of [payloads]; the other texts the examples
    hand to it ("oops", "final:") are not JSON. *)
Definition JSON_parse (text : string) : string + JsVal :=
  match List.find (λ props, String.eqb text (object_text props)) payloads with
  | Some props => inr (object_value props)
  | None => inl "Unexpected token"
  end.

(** Number formatting on the integers; the examples format no other
    number. *)
Definition Number_toString (n : JsNum) : string :=
  match n with
  | NaN => "NaN"
  | Infinity false => "Infinity"
  | Infinity true => "-Infinity"
  | Finite q => pretty (num_to_Z n)
  end.

(** A network that answers every request with the given response. *)
Definition answering (response : Response) : Request → Completion Response :=
  λ _, Normal response.

(** A network on which [fetch] throws an error with the given [code]. *)
Definition refusing (code : string) : Request → Completion Response :=
  λ _, Throw (mkException TypeError "fetch failed" (JStr code)).

(** [encodeURIComponent] on queries of unreserved characters, which it
    leaves as they are; the examples use no other query. *)
Definition encodeURIComponent (s : string) : string := s.

(** [cheerio.load] for the examples: every page is the fixture. *)
Definition load (html : string) : Search.CheerioAPI Dom.Node := Dom.api Dom.fixture.

(** The calls of the examples, against a network that answers every request
    with [response]. *)
Definition example_search (response : Response) (query token limit : JsVal)
  : Completion JsVal * list Request :=
  run (Search.search load encodeURIComponent "UA" (answering response) query token limit).

Definition example_summarize (response : Response) (input token options : JsVal)
  : Completion JsVal * list Request :=
  run (Summarize.summarize JSON_parse Number_toString "UA" (answering response)
         input token options).

(** Options whose language has an own [toString] that is no function. *)
Definition unprintable_language : JsVal :=
  JObj [("language", JObj [("toString", JNull)])].

(** An error payload whose [reply] has an own [toString] that is no
    function, and a [JSON.parse] that returns it for every text. *)
Definition unprintable_reply : JsVal :=
  JObj [("state", JStr "error"); ("reply", JObj [("toString", JInt 1)])].

Definition parsing_to (payload : JsVal) : string → string + JsVal :=
  λ _, inr payload.

(** A response whose body cannot be read. *)
Definition unreadable_200 (code : string) : Response :=
  mkResponse 200 "OK" (Throw (mkException TypeError "terminated" (JStr code))).

Definition answer_200 : Response := mkResponse 200 "OK" (Normal "<html></html>").

(** A text to summarize, a token, no options, and a network that answers
    200 with the given body. *)
Definition example_call (body : string) : Completion JsVal * list Request :=
  example_summarize (mkResponse 200 "OK" (Normal body)) (JStr "some text") (JStr "token")
    JUndefined.

End Samples.

(* ================================================================== *)
(** ** The vocabulary of the specification                             *)
(* ================================================================== *)

(** The stream protocol as the specification words it (section 4.3). *)
Module StreamSpec.

Fixpoint drop_chars (n : nat) (s : string) : string :=
  match n, s with
  | O, _ => s
  | S n', String _ s' => drop_chars n' s'
  | S _, EmptyString => EmptyString
  end.

(** A frame carries a tag when its trimmed text begins with one. *)
Definition tagged (frame : string) : bool :=
  startsWith (trim frame) "new_message.json:" || startsWith (trim frame) "final:".

(** "strip the tag prefix": [new_message.json:] first, then [final:]. *)
Definition strip_tag (s : string) : string :=
  if startsWith s "new_message.json:" then drop_chars 17 s
  else if startsWith s "final:" then drop_chars 6 s
  else s.

(** The most recent tagged frame: the first one met from the end. *)
Definition most_recent_tagged (frames : list string) : option string :=
  List.find tagged (rev frames).

(** The JSON candidate of steps 2 and 3. *)
Definition candidate (frames : list string) : string :=
  match most_recent_tagged frames with
  | Some frame => trim (strip_tag (trim frame))
  | None => trim (strip_tag (trim (List.last frames "")))
  end.

(** "the first present (non-absent) value wins" *)
Definition present (v : JsVal) : bool := negb (nullish v).

Definition first_present (values : list JsVal) (otherwise : JsVal) : JsVal :=
  match filter (λ v, present v = true) values with
  | v :: _ => v
  | [] => otherwise
  end.

(** The first value that is not falsy ([undefined], [null], [false], [0],
    [NaN] and the empty string are). *)
Definition first_truthy (values : list JsVal) (otherwise : JsVal) : JsVal :=
  match filter (λ v, truthy v = true) values with
  | v :: _ => v
  | [] => otherwise
  end.

(** The three fields of step 6, in its order. *)
Definition output_fields (payload : JsVal) : list JsVal :=
  [ get payload "md"; get payload "reply";
    get (get payload "output_data") "markdown" ].

Definition summary_response (output : JsVal) : JsVal :=
  JObj [("data", JObj [("output", output)])].

End StreamSpec.

(** The words of section 4.4 and of the interface descriptions. *)
Module ArgSpec.

(** "present and of string type" *)
Definition acceptable_string (v : JsVal) : bool :=
  match v with JStr s => str_truthy s | _ => false end.

(** "a positive integer": a number that is an integer and is at least 1. *)
Definition positive_integer (v : JsVal) : Prop :=
  ∃ z : Z, 1 ≤ z ∧ ∃ q, v = JNum (Finite q) ∧ Qeq q (inject_Z z).

(** The limit of a call: the argument, or 10 when it is omitted. *)
Definition limit_of (limit : JsVal) : JsVal :=
  match limit with JUndefined => JInt 10 | _ => limit end.

(** The summarization type and language of a call: the option, or its
    default when the option is omitted. *)
Definition type_of (options : JsVal) : JsVal :=
  Summarize.option_or_default options "type" (JStr "summary").

Definition language_of (options : JsVal) : JsVal :=
  Summarize.option_or_default options "language" (JStr "EN").

Definition isUrl_of (options : JsVal) : JsVal :=
  Summarize.option_or_default options "isUrl" (JBool false).

Definition one_of (allowed : list string) (v : JsVal) : Prop :=
  ∃ s, v = JStr s ∧ In s allowed.

(** The text of the supported set, as the message lists it. *)
Definition supported_list : string :=
  "BG, CS, DA, DE, EL, EN, ES, ET, FI, FR, HU, ID, IT, JA, KO, LT, LV, NB, NL, PL, PT, RO, RU, SK, SL, SV, TR, UK, ZH, ZH-HANT".

(** How a call settled, and what it sent. *)
Definition rejected_unsent {A} (outcome : Completion A * list Request) (message : string) : Prop :=
  outcome = (Throw (new_Error message), []).

(** "2xx", and the two authentication statuses. *)
Definition is_2xx (status : Z) : Prop := 200 ≤ status ≤ 299.

Definition is_auth_failure (status : Z) : Prop := status = 401 ∨ status = 403.

End ArgSpec.

(** The words of section 4.2. *)
Module SearchSpec.

Import Search.

(** A record's discriminant [t] is the number [k]. *)
Definition is_t (k : Z) (record : JsVal) : bool :=
  match get record "t" with
  | JNum (Finite q) => Qeq_bool q (inject_Z k)
  | _ => false
  end.

(** The number of [t=0] records in a result. *)
Definition count_t0 (records : list JsVal) : nat :=
  length (filter (λ record, is_t 0 record = true) records).

(** "exactly one t=1 record" when a term was found, none otherwise. *)
Definition related_part (terms : list string) : list JsVal :=
  match terms with
  | [] => []
  | _ :: _ => [related_record terms]
  end.

(** "all non-empty trimmed strings", of the texts of the related spans. *)
Definition related_terms (texts : list string) : list string :=
  filter (λ term, str_truthy term = true) (map trim texts).

Section Vocabulary.
Context {Elem : Type} (dollar : CheerioAPI Elem).

(** A document whose traversal does not throw: the elements the three
    selectors match, and the text of each related span. (Whether a single
    result element can be read is not part of it.) *)
Record reads (primary grouped spans : list Elem) (texts : list string) : Prop := mkReads {
  reads_primary : select dollar ".search-result" = Normal primary;
  reads_grouped : select dollar ".sr-group .__srgi" = Normal grouped;
  reads_spans : select dollar ".related-searches a span" = Normal spans;
  reads_texts : Forall2 (λ span t, elem_text dollar span = Normal t) spans texts
}.

(** What field extraction reads from one result element: the text and the
    [href] of its title link, its description text and its timestamp
    text. *)
Record Fields : Type := mkFields {
  title_text : string;
  href : option string;
  description_text : string;
  timestamp_text : string
}.

(** Field extraction on one element, the title link being the first match
    of [title_selector] below it. It fails ([None]) when one of the reads
    throws, whichever it is. *)
Definition fields_of (title_selector : string) (element : Elem) : option Fields :=
  match find dollar element title_selector,
        find dollar element ".__sri-desc",
        find dollar element ".__sri-time" with
  | Normal links, Normal descriptions, Normal times =>
      match text_of dollar (first links),
            attr_of dollar (first links) "href",
            text_of dollar descriptions,
            text_of dollar (first times) with
      | Normal title, Normal link, Normal description, Normal timestamp =>
          Some (mkFields title link description timestamp)
      | _, _, _, _ => None
      end
  | _, _, _ => None
  end.

Definition non_empty (s : string) : bool := negb (String.eqb s "").

(** The [t=0] record of fields that yield both a title and a URL: the URL
    as it was read, the texts trimmed, a missing snippet as the empty
    string and a missing timestamp as [null]. Fields without a title or
    without a URL yield none. *)
Definition record_of (fields : Fields) : option JsVal :=
  match href fields with
  | Some url =>
      if non_empty (trim (title_text fields)) && non_empty url then
        Some (JObj [ ("t", JInt 0);
                     ("url", JStr url);
                     ("title", JStr (trim (title_text fields)));
                     ("snippet", JStr (trim (description_text fields)));
                     ("published",
                      if non_empty (trim (timestamp_text fields))
                      then JStr (trim (timestamp_text fields))
                      else JNull) ])
      else None
  | None => None
  end.

(** An element is successfully extractable when its field extraction
    succeeds and yields a record. *)
Definition record_of_element (title_selector : string) (element : Elem) : option JsVal :=
  match fields_of title_selector element with
  | Some fields => record_of fields
  | None => None
  end.

(** The records of the successfully extractable elements, in document
    order, the primary ones first. *)
Definition extractable (primary grouped : list Elem) : list JsVal :=
  omap (record_of_element ".__sri_title_link") primary
  ++ omap (record_of_element ".__srgi-title a") grouped.

(** The terms of the spans read before the first one whose text throws. *)
Fixpoint terms_before_throw (spans : list Elem) : list string :=
  match spans with
  | [] => []
  | span :: rest =>
      match elem_text dollar span with
      | Throw _ => []
      | Normal t =>
          (if str_truthy (trim t) then [trim t] else []) ++ terms_before_throw rest
      end
  end.

End Vocabulary.

(** The error of a document that cannot be traversed. *)
Definition structure_error : Exception :=
  new_Error "Failed to parse search results - unexpected HTML structure".

End SearchSpec.

(** Shapes of stream bodies and of selections, for the properties beyond
    the specification's. *)
Module Shapes.

Fixpoint all_chars (p : ascii → bool) (s : string) : bool :=
  match s with
  | EmptyString => true
  | String c s' => p c && all_chars p s'
  end.

(** Nothing but white space. *)
Definition all_space (s : string) : bool := all_chars is_white_space s.

(** Nothing but NUL bytes and white space. *)
Definition blank (s : string) : bool :=
  all_chars (λ c, Ascii.eqb c Summarize.NUL || is_white_space c) s.

(** No NUL byte: the text of one frame. *)
Definition no_NUL (s : string) : bool :=
  all_chars (λ c, negb (Ascii.eqb c Summarize.NUL)) s.

(** The two framing tags. *)
Definition tags : list string := [ "new_message.json:"; "final:" ].

(** The error of a stream that holds no frame, and the error the later
    revision ends with when [JSON.parse] rejects the candidate. *)
Definition no_data_error : Exception := new_Error "No summary data received".

Definition out_of_scope_error : Exception :=
  mkException ReferenceError "jsonString is not defined" JUndefined.

(** What the later revision does with the text it selected. *)
Definition parse_selected (JSON_parse : string → string + JsVal) (text : string)
  : Completion JsVal :=
  match JSON_parse text with
  | inr payload => Normal payload
  | inl _ => Throw out_of_scope_error
  end.

(** What the 1.3.0 revision does with the text it selected. *)
Definition parse_selected_1_3_0 (JSON_parse : string → string + JsVal) (text : string)
  : Completion JsVal :=
  match JSON_parse text with
  | inr payload => Normal payload
  | inl _ => Throw (new_Error "Failed to parse summary JSON response")
  end.

(** The error of a failed connection. *)
Definition network_error : Exception :=
  new_Error "Network error: Unable to connect to Kagi".

Definition connection_failed (e : Exception) : bool :=
  is_string (ex_code e) "ENOTFOUND" || is_string (ex_code e) "ECONNREFUSED".

(** The options with every default written out. *)
Definition default_options : JsVal :=
  JObj [ ("type", JStr "summary"); ("language", JStr "EN"); ("isUrl", JBool false) ].

End Shapes.

(* ================================================================== *)
(** ** Properties of the stream parser                                 *)
(* ================================================================== *)

Module SummarizeFacts.

Import Summarize StreamSpec.

Lemma str_truthy_true (s : string) : str_truthy s = true ↔ s ≠ "".
Proof. destruct s; simpl; split; congruence. Qed.

Lemma str_truthy_false (s : string) : str_truthy s = false ↔ s = "".
Proof. destruct s; simpl; split; congruence. Qed.

(** A conversion to a string fails in one way only. *)
Lemma ToString_throws (Number_toString : JsNum → string) (v : JsVal) (e : Exception) :
  ToString Number_toString v = Throw e → e = conversion_error.
Proof.
  revert v e. fix IH 1. intros [| |[|]|n|s|items|props] e; cbn [ToString];
    try discriminate.
  - intros H.
    assert (Hitems : ∀ e', (fix each_item (items : list JsVal) : Completion (list string) :=
            match items with
            | [] => Normal []
            | x :: rest =>
                bindC (if nullish x then Normal "" else ToString Number_toString x) (λ part,
                bindC (each_item rest) (λ parts,
                Normal (part :: parts)))
            end) items = Throw e' → e' = conversion_error).
    { clear H. induction items as [|x rest IHrest]; intros e'; [discriminate|].
      destruct (nullish x) eqn:En; cbn [bindC].
      - destruct ((fix each_item (items : list JsVal) := _) rest) eqn:Erest;
          cbn [bindC]; [discriminate|]. intros [= <-]. now apply IHrest.
      - destruct (ToString Number_toString x) eqn:Ex; cbn [bindC].
        + destruct ((fix each_item (items : list JsVal) := _) rest) eqn:Erest;
            cbn [bindC]; [discriminate|]. intros [= <-]. now apply IHrest.
        + intros [= <-]. now apply (IH x). }
    destruct ((fix each_item (items : list JsVal) := _) items) eqn:E;
      cbn [bindC] in H; [discriminate|]. injection H as <-. now apply Hitems.
  - destruct (has_key "toString" props); [now intros [= <-] | discriminate].
Qed.

Lemma ToString_string (Number_toString : JsNum → string) (s : string) :
  ToString Number_toString (JStr s) = Normal s.
Proof. reflexivity. Qed.

(** A pattern whose atoms accept the characters of [p] consumes [p] from
    any string that starts with it. *)
Lemma match_at_start_prefix (re : list RegexAtom) (p s : string) :
  Forall2 (λ a c, atom_matches a c = true) re (String.list_ascii_of_string p) →
  String.prefix p s = true →
  match_at_start re s = Some (drop_chars (String.length p) s).
Proof.
  revert p s. induction re as [|a re IH]; intros p s Hre Hp.
  - destruct p; [reflexivity | inversion Hre].
  - destruct p as [|c p]; [inversion Hre|].
    simpl in Hre. inversion Hre as [|? ? ? ? Ha Hrest]; subst.
    destruct s as [|c' s]; simpl in Hp; [discriminate|].
    destruct (ascii_dec c c') as [->|Hne]; [|discriminate].
    simpl. rewrite Ha. apply IH; assumption.
Qed.

Lemma replace_new_message_json (msg : string) :
  startsWith msg "new_message.json:" = true →
  replace_at_start re_new_message_json msg = drop_chars 17 msg.
Proof.
  intros Hp. unfold replace_at_start.
  rewrite (match_at_start_prefix _ "new_message.json:" msg); [reflexivity | | exact Hp].
  repeat constructor.
Qed.

Lemma replace_final (msg : string) :
  startsWith msg "final:" = true →
  replace_at_start re_final msg = drop_chars 6 msg.
Proof.
  intros Hp. unfold replace_at_start.
  rewrite (match_at_start_prefix _ "final:" msg); [reflexivity | | exact Hp].
  repeat constructor.
Qed.

(** What one step of the scan does with a frame. *)
Lemma scan_step (messages : list string) (i : nat) :
  scan_messages messages (S i) =
    if tagged (nth i messages "")
    then Some (trim (strip_tag (trim (nth i messages ""))))
    else scan_messages messages i.
Proof.
  simpl. unfold tagged, strip_tag.
  destruct (startsWith (trim (nth i messages "")) "new_message.json:") eqn:E1.
  - simpl. now rewrite replace_new_message_json.
  - destruct (startsWith (trim (nth i messages "")) "final:") eqn:E2; simpl.
    + now rewrite replace_final.
    + reflexivity.
Qed.

Lemma scan_messages_take (messages : list string) (k : nat) :
  (k ≤ length messages)%nat →
  scan_messages messages k =
    option_map (λ frame, trim (strip_tag (trim frame)))
               (List.find tagged (rev (take k messages))).
Proof.
  induction k as [|i IH]; intros Hk.
  - reflexivity.
  - rewrite scan_step.
    assert (Hi : (i < length messages)%nat) by lia.
    destruct (lookup_lt_is_Some_2 messages i Hi) as [frame Hframe].
    rewrite (nth_lookup_Some messages i "" frame Hframe).
    rewrite (take_S_r messages i frame Hframe).
    rewrite rev_app_distr. simpl.
    destruct (tagged frame); [reflexivity|].
    apply IH. lia.
Qed.

Lemma nth_last (messages : list string) :
  nth (length messages - 1) messages "" = List.last messages "".
Proof.
  induction messages as [|m [|m' rest] IH]; [reflexivity | reflexivity |].
  change (List.last (m :: m' :: rest) "") with (List.last (m' :: rest) "").
  rewrite <- IH. simpl. now rewrite Nat.sub_0_r.
Qed.

Lemma scan_messages_spec (messages : list string) :
  scan_messages messages (length messages) =
    option_map (λ frame, trim (strip_tag (trim frame))) (most_recent_tagged messages).
Proof.
  rewrite scan_messages_take by lia. unfold most_recent_tagged.
  now rewrite firstn_all.
Qed.

(** [jsonString] after the scan and the fall-back, by cases on the most
    recent tagged frame. *)
Lemma select_jsonString_cases (messages : list string) :
  select_jsonString messages =
    match most_recent_tagged messages with
    | Some frame =>
        if str_truthy (trim (strip_tag (trim frame)))
        then Some (trim (strip_tag (trim frame)))
        else Some (trim (List.last messages ""))
    | None => Some (trim (List.last messages ""))
    end.
Proof.
  unfold select_jsonString. rewrite scan_messages_spec, nth_last.
  destruct (most_recent_tagged messages) as [frame|]; simpl; [|reflexivity].
  now destruct (str_truthy (trim (strip_tag (trim frame)))).
Qed.

(** *** [trim] *)

Lemma trimEnd_idempotent (s : string) : trimEnd (trimEnd s) = trimEnd s.
Proof.
  induction s as [|c s IH]; [reflexivity|]. simpl.
  destruct (is_white_space c && negb (str_truthy (trimEnd s))) eqn:E; [reflexivity|].
  simpl. now rewrite IH, E.
Qed.

Lemma trimStart_no_leading_space (s : string) : no_leading_space (trimStart s).
Proof.
  induction s as [|c s IH]; simpl; [exact I|].
  destruct (is_white_space c) eqn:E; [exact IH | exact E].
Qed.

Lemma trimStart_fixed (s : string) : no_leading_space s → trimStart s = s.
Proof. destruct s as [|c s]; simpl; [reflexivity|]. now intros ->. Qed.

Lemma trimEnd_no_leading_space (s : string) :
  no_leading_space s → no_leading_space (trimEnd s).
Proof. destruct s as [|c s]; simpl; [trivial|]. intros Hc. rewrite Hc. exact Hc. Qed.

Lemma trim_idempotent (s : string) : trim (trim s) = trim s.
Proof.
  unfold trim.
  rewrite (trimStart_fixed (trimEnd (trimStart s))).
  - apply trimEnd_idempotent.
  - apply trimEnd_no_leading_space, trimStart_no_leading_space.
Qed.

(** *** The frames *)

Lemma split_messages_not_blank (streamData frame : string) :
  frame ∈ split_messages streamData → str_truthy (trim frame) = true.
Proof. unfold split_messages. rewrite list_elem_of_filter. tauto. Qed.

Lemma last_elem_of (messages : list string) :
  messages ≠ [] → List.last messages "" ∈ messages.
Proof.
  induction messages as [|m [|m' rest] IH]; intros Hne; [congruence | left |].
  right. apply IH. discriminate.
Qed.

(** After the fall-back [jsonString] is never empty: the check that throws
    "Empty summary received" cannot fire. *)
Lemma select_jsonString_not_empty (messages : list string) :
  messages ≠ [] →
  (∀ frame, frame ∈ messages → str_truthy (trim frame) = true) →
  ∃ text, select_jsonString messages = Some text ∧ str_truthy text = true.
Proof.
  intros Hne Hall. rewrite select_jsonString_cases.
  pose proof (Hall _ (last_elem_of messages Hne)) as Hlast.
  destruct (most_recent_tagged messages) as [frame|]; [|eauto].
  destruct (str_truthy (trim (strip_tag (trim frame)))) eqn:E; eauto.
Qed.

Lemma find_none_last (messages : list string) :
  messages ≠ [] →
  most_recent_tagged messages = None → tagged (List.last messages "") = false.
Proof.
  intros Hne Hnone. unfold most_recent_tagged in Hnone.
  apply (find_none _ _ Hnone). apply in_rev. rewrite rev_involutive.
  apply list_elem_of_In, last_elem_of, Hne.
Qed.

Lemma strip_tag_untagged (frame : string) :
  tagged frame = false → strip_tag (trim frame) = trim frame.
Proof.
  unfold tagged, strip_tag. intros Ht. apply orb_false_iff in Ht as [-> ->]. reflexivity.
Qed.

(** Where the specification's candidate is not empty, the code selects it. *)
Lemma select_jsonString_agrees (messages : list string) :
  messages ≠ [] →
  candidate messages ≠ "" →
  select_jsonString messages = Some (candidate messages).
Proof.
  intros Hne Hc. rewrite select_jsonString_cases. unfold candidate in *.
  destruct (most_recent_tagged messages) as [frame|] eqn:E.
  - apply str_truthy_true in Hc. now rewrite Hc.
  - rewrite (strip_tag_untagged _ (find_none_last _ Hne E)).
    now rewrite trim_idempotent.
Qed.

(** Without a tagged frame the candidate is the trimmed last frame, as the
    specification says. *)
Lemma select_jsonString_untagged (messages : list string) :
  messages ≠ [] →
  most_recent_tagged messages = None →
  select_jsonString messages = Some (trim (List.last messages ""))
  ∧ candidate messages = trim (List.last messages "").
Proof.
  intros Hne E. rewrite select_jsonString_cases. unfold candidate. rewrite E.
  split; [reflexivity|].
  rewrite (strip_tag_untagged _ (find_none_last _ Hne E)). apply trim_idempotent.
Qed.

End SummarizeFacts.

(* ================================================================== *)
(** ** Properties of [summarize]                                        *)
(* ================================================================== *)

Module SummarizeCalls.

Import Summarize StreamSpec ArgSpec SummarizeFacts.

Section Calls.
Context (JSON_parse : string → string + JsVal)
        (Number_toString : JsNum → string)
        (USER_AGENT : string)
        (net : Request → Completion Response).

Local Abbreviation parse := (parseStreamingSummary JSON_parse).
Local Abbreviation summarize' := (summarize JSON_parse Number_toString USER_AGENT net).
Local Abbreviation request_of input token options :=
  (summary_request USER_AGENT input token
     (type_of options) (language_of options) (isUrl_of options)).

(** What [parseStreamingSummary] does on every stream body. *)
Lemma parseStreamingSummary_behaviour (streamData : string) :
  parse streamData =
    match split_messages streamData with
    | [] => Throw (new_Error "No summary data received")
    | messages =>
        match JSON_parse (parse_argument (select_jsonString messages)) with
        | inr payload => Normal payload
        | inl _ => Throw (mkException ReferenceError "jsonString is not defined" JUndefined)
        end
    end.
Proof.
  unfold parseStreamingSummary, parseStreamingSummary_try.
  destruct (split_messages streamData) as [|m ms] eqn:E; [reflexivity|].
  destruct (select_jsonString_not_empty (m :: ms)) as (text & Hsel & Htext).
  - discriminate.
  - intros frame Hin. apply (split_messages_not_blank streamData). now rewrite E.
  - cbn [length Nat.eqb]. rewrite Hsel. cbn [not_jsonString]. rewrite Htext.
    cbn [negb parse_argument]. unfold call_JSON_parse.
    destruct (JSON_parse text); reflexivity.
Qed.

Lemma parse_throws_plain (streamData : string) (e : Exception) :
  parse streamData = Throw e → ex_code e = JUndefined.
Proof.
  rewrite parseStreamingSummary_behaviour.
  destruct (split_messages streamData); [now intros [= <-]|].
  destruct (JSON_parse _); [now intros [= <-] | discriminate].
Qed.

Lemma summary_of_throws_plain (payload : JsVal) (e : Exception) :
  summary_of Number_toString payload = Throw e → ex_code e = JUndefined.
Proof.
  unfold summary_of. destruct (is_string _ _); [|discriminate].
  destruct (ToString _ _) as [message|e'] eqn:E; cbn [bindC]; intros [= <-];
    [reflexivity|]. now rewrite (ToString_throws _ _ _ E).
Qed.

Lemma handler_result {A} (e : Exception) (log : list Request) :
  fst (network_error_handler (A := A) e log)
  = Throw (if Shapes.connection_failed e then Shapes.network_error else e).
Proof.
  unfold network_error_handler, Shapes.connection_failed.
  now destruct (is_string (ex_code e) "ENOTFOUND" || is_string (ex_code e) "ECONNREFUSED").
Qed.

Lemma handler_passes_plain {A} (e : Exception) (log : list Request) :
  ex_code e = JUndefined → network_error_handler (A := A) e log = (Throw e, log).
Proof. unfold network_error_handler. now intros ->. Qed.

Lemma acceptable_string_inv (v : JsVal) :
  acceptable_string v = true → ∃ s, v = JStr s ∧ str_truthy s = true.
Proof. destruct v; simpl; try discriminate. eauto. Qed.

Lemma includes_spec (allowed : list string) (v : JsVal) :
  includes allowed v = true ↔ one_of allowed v.
Proof.
  unfold includes, one_of. split.
  - destruct v; try discriminate. intros Hex.
    apply existsb_exists in Hex as (x & Hin & Heq).
    apply String.eqb_eq in Heq as ->. eauto.
  - intros (s & -> & Hin). apply existsb_exists. exists s. split; [exact Hin|].
    apply String.eqb_refl.
Qed.

(** A call whose arguments pass validation sends one request, and what it
    settles as is decided by the response. *)
Lemma summarize_sends (input token options : JsVal) :
  acceptable_string input = true →
  acceptable_string token = true →
  one_of ["summary"; "takeaway"] (type_of options) →
  one_of SUPPORTED_LANGUAGES (language_of options) →
  let request := request_of (string_of input) (string_of token) options in
  run (summarize' input token options) =
    (match net request with
     | Throw e => fst (network_error_handler (A := JsVal) e [request])
     | Normal response =>
         if ok response then
           match text response with
           | Throw e => fst (network_error_handler (A := JsVal) e [request])
           | Normal streamData =>
               let* payload := parse streamData in
               summary_of Number_toString payload
           end
         else if (status response =? 401) || (status response =? 403)
         then Throw (new_Error "Invalid or expired session token")
         else Throw (new_Error ("HTTP " +:+ pretty (status response) +:+ ": "
                                +:+ statusText response))
     end, [request]).
Proof.
  intros Hin Htok Hty Hlang.
  apply acceptable_string_inv in Hin as (i & -> & Hi).
  apply acceptable_string_inv in Htok as (t & -> & Ht).
  apply includes_spec in Hty. apply includes_spec in Hlang.
  unfold type_of, language_of, isUrl_of in *. cbn [string_of].
  set (request := summary_request _ _ _ _ _ _).
  unfold run, summarize. cbn [truthy typeof]. rewrite Hi, Ht, String.eqb_refl.
  cbn [negb orb]. rewrite Hty, Hlang. cbn [negb].
  unfold try_catchE, bindE, fetch. cbn [app string_of]. fold request.
  destruct (net request) as [response|e] eqn:Enet.
  - unfold check_status. destruct (ok response) eqn:Eok; cbn [negb].
    + unfold resolve, lift.
      destruct (text response) as [streamData|e] eqn:Etext.
      * destruct (parse streamData) as [payload|e] eqn:Eparse; cbn [bindC].
        -- destruct (summary_of Number_toString payload) as [v|e] eqn:Esum; [reflexivity|].
           now rewrite handler_passes_plain by (eapply summary_of_throws_plain; eauto).
        -- now rewrite handler_passes_plain by (eapply parse_throws_plain; eauto).
      * unfold network_error_handler.
        destruct (is_string (ex_code e) "ENOTFOUND" || is_string (ex_code e) "ECONNREFUSED");
          reflexivity.
    + destruct ((status response =? 401) || (status response =? 403)); unfold reject;
        now rewrite handler_passes_plain.
  - unfold network_error_handler.
    destruct (is_string (ex_code e) "ENOTFOUND" || is_string (ex_code e) "ECONNREFUSED");
      reflexivity.
Qed.

End Calls.

End SummarizeCalls.

(* ================================================================== *)
(** ** Properties of the search-result extractor                       *)
(* ================================================================== *)

Module SearchFacts.

Import Search SearchSpec SummarizeFacts.

Section Facts.
Context {Elem : Type} (dollar : CheerioAPI Elem).

(** *** The two result loops *)

Lemma each_result_callback (extract : Elem → option JsVal) (limit : Z)
    (elements : list Elem) (vars : Vars) :
  each elements (result_callback extract limit) vars =
    (Normal (),
     let taken := take (Z.to_nat (limit - resultCount vars)) (omap extract elements) in
     mkVars (results vars ++ taken) (resultCount vars + Z.of_nat (length taken))).
Proof.
  revert vars. induction elements as [|element rest IH]; intros [rs count]; cbn zeta.
  - cbn. rewrite take_nil, app_nil_r, Z.add_0_r. reflexivity.
  - cbn [each]. unfold result_callback at 1. cbn [resultCount results].
    destruct (limit <=? count) eqn:E.
    + apply Z.leb_le in E.
      replace (Z.to_nat (limit - count)) with 0%nat by lia.
      cbn. now rewrite app_nil_r, Z.add_0_r.
    + apply Z.leb_gt in E. cbn [omap list_omap].
      destruct (extract element) as [result|].
      * rewrite IH. cbn zeta. cbn [resultCount results].
        replace (Z.to_nat (limit - count)) with (S (Z.to_nat (limit - (count + 1)))) by lia.
        cbn [take]. rewrite <- app_assoc. cbn [app length].
        do 2 f_equal. lia.
      * rewrite IH. reflexivity.
Qed.

(** *** Related searches *)

Lemma each_related_callback (spans : list Elem) (collected : list string) :
  snd (each spans (related_callback dollar) collected) =
    collected ++ terms_before_throw dollar spans.
Proof.
  revert collected. induction spans as [|span rest IH]; intros collected.
  - cbn. now rewrite app_nil_r.
  - cbn [each terms_before_throw]. unfold related_callback at 1.
    destruct (elem_text dollar span) as [t|e]; [|cbn; now rewrite app_nil_r].
    destruct (str_truthy (trim t)); rewrite IH; [now rewrite <- app_assoc | reflexivity].
Qed.

Lemma extractRelatedSearches_selected (spans : list Elem) :
  select dollar ".related-searches a span" = Normal spans →
  extractRelatedSearches dollar = terms_before_throw dollar spans.
Proof.
  intros Hsel. unfold extractRelatedSearches, extractRelatedSearches_try, bindE, lift.
  rewrite Hsel. apply each_related_callback.
Qed.

Lemma extractRelatedSearches_select_throws (e : Exception) :
  select dollar ".related-searches a span" = Throw e →
  extractRelatedSearches dollar = [].
Proof.
  intros Hsel. unfold extractRelatedSearches, extractRelatedSearches_try, bindE, lift.
  now rewrite Hsel.
Qed.

Lemma terms_before_throw_reads (spans : list Elem) (texts : list string) :
  Forall2 (λ span t, elem_text dollar span = Normal t) spans texts →
  terms_before_throw dollar spans = related_terms texts.
Proof.
  induction 1 as [|span t spans texts Ht _ IH]; [reflexivity|].
  cbn [terms_before_throw]. rewrite Ht, IH. unfold related_terms.
  cbn [map]. rewrite filter_cons.
  destruct (str_truthy (trim t)) eqn:E.
  - rewrite decide_True by reflexivity. reflexivity.
  - rewrite decide_False by discriminate. reflexivity.
Qed.

Lemma push_related (rs : list JsVal) (terms : list string) :
  (if (0 <? length terms)%nat then rs ++ [related_record terms] else rs)
  = rs ++ related_part terms.
Proof. destruct terms; cbn; [now rewrite app_nil_r | reflexivity]. Qed.

(** *** The two extractors against field extraction *)

Lemma extract_try_record (title_selector : string) (element : Elem) :
  or_null_on_throw (extract_try title_selector dollar element)
  = record_of_element dollar title_selector element.
Proof.
  unfold extract_try, record_of_element, fields_of, record_of, non_empty.
  destruct (find dollar element title_selector) as [links|]; [|reflexivity].
  cbn [bindC].
  destruct (text_of dollar (first links)) as [title|];
    [|destruct (find dollar element ".__sri-desc");
      [destruct (find dollar element ".__sri-time")|]; reflexivity].
  cbn [bindC].
  destruct (attr_of dollar (first links) "href") as [link|];
    [|destruct (find dollar element ".__sri-desc");
      [destruct (find dollar element ".__sri-time")|]; reflexivity].
  cbn [bindC].
  destruct (find dollar element ".__sri-desc") as [descriptions|]; [|reflexivity].
  cbn [bindC].
  destruct (text_of dollar descriptions) as [description|];
    [|destruct (find dollar element ".__sri-time"); reflexivity].
  cbn [bindC].
  destruct (find dollar element ".__sri-time") as [times|]; [|reflexivity].
  cbn [bindC].
  destruct (text_of dollar (first times)) as [timestamp|]; [|reflexivity].
  cbn [bindC title_text href description_text timestamp_text].
  destruct link as [url|]; cbn [not_url];
    [|now destruct (str_truthy (trim title))].
  unfold web_result, or_null, or_empty.
  destruct (trim title); [reflexivity|].
  destruct url; [reflexivity|].
  cbn [str_truthy negb orb andb String.eqb or_null_on_throw].
  destruct (trim description); destruct (trim timestamp); reflexivity.
Qed.

Lemma extractSearchResult_record (element : Elem) :
  extractSearchResult dollar element
  = record_of_element dollar ".__sri_title_link" element.
Proof. apply extract_try_record. Qed.

Lemma extractGroupedResult_record (element : Elem) :
  extractGroupedResult dollar element
  = record_of_element dollar ".__srgi-title a" element.
Proof. apply extract_try_record. Qed.

Lemma omap_pointwise {A B} (f g : A → option B) (l : list A) :
  (∀ x, f x = g x) → omap f l = omap g l.
Proof.
  intros Hfg. induction l as [|x l IH]; simpl; [reflexivity|].
  rewrite Hfg. destruct (g x); [f_equal|]; exact IH.
Qed.

(** The records the two extractors of the code make of the elements are
    the records of the extractable elements. *)
Lemma extractable_extracted (primary grouped : list Elem) :
  extractable dollar primary grouped
  = omap (extractSearchResult dollar) primary ++ omap (extractGroupedResult dollar) grouped.
Proof.
  unfold extractable. f_equal; apply omap_pointwise; intros element; symmetry.
  - apply extractSearchResult_record.
  - apply extractGroupedResult_record.
Qed.

(** *** [parseSearchResults] *)

Lemma parseSearchResults_primary_throws (limit : Z) (e : Exception) :
  select dollar ".search-result" = Throw e →
  parseSearchResults dollar limit = Throw structure_error.
Proof.
  intros Hsel. unfold parseSearchResults, parseSearchResults_try, bindE, lift.
  now rewrite Hsel.
Qed.

(** Once the primary results are selected: the grouped results are selected
    only if the primary ones left the limit unreached. *)
Lemma parseSearchResults_primary_selected (limit : Z) (primary : list Elem) :
  select dollar ".search-result" = Normal primary →
  let extracted := omap (extractSearchResult dollar) primary in
  let related := related_part (extractRelatedSearches dollar) in
  parseSearchResults dollar limit =
    if Z.of_nat (length extracted) <? limit then
      match select dollar ".sr-group .__srgi" with
      | Normal grouped =>
          Normal (take (Z.to_nat limit) (extractable dollar primary grouped) ++ related)
      | Throw _ => Throw structure_error
      end
    else Normal (take (Z.to_nat limit) extracted ++ related).
Proof.
  intros Hsel extracted related.
  unfold parseSearchResults, parseSearchResults_try, bindE, lift. rewrite Hsel.
  rewrite each_result_callback. cbn zeta. cbn [resultCount results app].
  rewrite Z.sub_0_r, Z.add_0_l. fold extracted.
  rewrite length_take.
  destruct (Z.of_nat (length extracted) <? limit) eqn:E.
  - apply Z.ltb_lt in E.
    replace (Z.of_nat (Z.to_nat limit `min` length extracted) <? limit) with true
      by (symmetry; apply Z.ltb_lt; lia).
    destruct (select dollar ".sr-group .__srgi") as [grouped|e]; [|reflexivity].
    rewrite each_result_callback. cbn zeta. cbn [resultCount results].
    subst related. rewrite <- push_related.
    rewrite extractable_extracted. fold extracted.
    rewrite take_app, (take_ge extracted), Nat.min_r by lia.
    replace (Z.to_nat (limit - Z.of_nat (length extracted)))
      with (Z.to_nat limit - length extracted)%nat by lia.
    now destruct (0 <? length (extractRelatedSearches dollar))%nat.
  - apply Z.ltb_ge in E.
    replace (Z.of_nat (Z.to_nat limit `min` length extracted) <? limit) with false
      by (symmetry; apply Z.ltb_ge; lia).
    subst related. rewrite <- push_related. cbn [results].
    now destruct (0 <? length (extractRelatedSearches dollar))%nat.
Qed.

(** When both selections can be made, whatever the limit. *)
Lemma parseSearchResults_selected (limit : Z) (primary grouped : list Elem) :
  select dollar ".search-result" = Normal primary →
  select dollar ".sr-group .__srgi" = Normal grouped →
  parseSearchResults dollar limit =
    Normal (take (Z.to_nat limit) (extractable dollar primary grouped)
            ++ related_part (extractRelatedSearches dollar)).
Proof.
  intros Hp Hg. rewrite (parseSearchResults_primary_selected limit primary Hp).
  cbn zeta. rewrite Hg.
  destruct (Z.of_nat (length (omap (extractSearchResult dollar) primary)) <? limit) eqn:E;
    [reflexivity|].
  apply Z.ltb_ge in E. rewrite extractable_extracted. now rewrite take_app_le by lia.
Qed.

End Facts.

End SearchFacts.

Module SearchRecords.

Import Search SearchSpec SummarizeFacts SearchFacts.

Section Records.
Context {Elem : Type} (dollar : CheerioAPI Elem).

Local Ltac step :=
  match goal with
  | |- context [bindC ?c _] =>
      let E := fresh "E" in destruct c eqn:E; cbn [bindC or_null_on_throw]
  end.

(** What an extractor read from an element it made a record of. *)
Lemma extract_some (title_selector : string) (element : Elem) (record : JsVal) :
  or_null_on_throw (extract_try title_selector dollar element) = Some record →
  ∃ found desc time title_text url snippet_text published_text,
    find dollar element title_selector = Normal found
    ∧ text_of dollar (first found) = Normal title_text
    ∧ attr_of dollar (first found) "href" = Normal (Some url)
    ∧ find dollar element ".__sri-desc" = Normal desc
    ∧ text_of dollar desc = Normal snippet_text
    ∧ find dollar element ".__sri-time" = Normal time
    ∧ text_of dollar (first time) = Normal published_text
    ∧ trim title_text ≠ "" ∧ url ≠ ""
    ∧ record = web_result url (trim title_text) (trim snippet_text)
                          (or_null (trim published_text)).
Proof.
  unfold extract_try.
  step; [|discriminate]. step; [|discriminate]. step; [|discriminate].
  step; [|discriminate]. step; [|discriminate]. step; [|discriminate].
  step; [|discriminate].
  match goal with |- context [str_truthy (trim ?t)] => destruct (str_truthy (trim t)) eqn:Et end;
    cbn [negb orb]; [|discriminate].
  match goal with |- context [not_url ?u] => destruct u as [url|] end;
    cbn [not_url]; [|discriminate].
  destruct (str_truthy url) eqn:Eu; cbn [negb or_null_on_throw]; [|discriminate].
  intros [= <-]. apply str_truthy_true in Et, Eu.
  do 7 eexists. repeat (split; [eassumption || reflexivity|]). reflexivity.
Qed.

(** An element whose title or link cannot be had yields no record. *)
Lemma extract_none (title_selector : string) (element : Elem) :
  (∀ found title_text url,
      find dollar element title_selector = Normal found →
      text_of dollar (first found) = Normal title_text →
      attr_of dollar (first found) "href" = Normal url →
      trim title_text = "" ∨ url = None ∨ url = Some "") →
  or_null_on_throw (extract_try title_selector dollar element) = None.
Proof.
  intros Hmissing.
  destruct (or_null_on_throw (extract_try title_selector dollar element))
    as [record|] eqn:E; [|reflexivity].
  apply extract_some in E
    as (found & desc & time & title_text & url & ? & ? & Hf & Ht & Hu & _ & _ & _ & _ & Hne & Hurl & _).
  destruct (Hmissing _ _ _ Hf Ht Hu) as [H|[H|H]]; [contradiction | discriminate |].
  now injection H as ->.
Qed.

Lemma or_empty_id (s : string) : or_empty s = s.
Proof. now destruct s. Qed.

Lemma web_result_is_t0 (url title snippet : string) (published : JsVal) :
  is_t 0 (web_result url title snippet published) = true.
Proof. reflexivity. Qed.

Lemma related_record_is_t (terms : list string) :
  is_t 0 (related_record terms) = false ∧ is_t 1 (related_record terms) = true.
Proof. split; reflexivity. Qed.

Lemma extracted_is_t0 (title_selector : string) (element : Elem) (record : JsVal) :
  or_null_on_throw (extract_try title_selector dollar element) = Some record →
  is_t 0 record = true.
Proof.
  intros H. apply extract_some in H as (? & ? & ? & ? & ? & ? & ? & H).
  destruct H as (_ & _ & _ & _ & _ & _ & _ & _ & _ & ->). reflexivity.
Qed.

Lemma extractable_is_t0 (primary grouped : list Elem) :
  Forall (λ record, is_t 0 record = true) (extractable dollar primary grouped).
Proof.
  apply Forall_forall. intros record Hin. rewrite extractable_extracted in Hin.
  apply elem_of_app in Hin as [Hin|Hin];
    apply list_elem_of_omap in Hin as (element & _ & Hex);
    eapply extracted_is_t0; exact Hex.
Qed.

(** Where each record of a result comes from. *)
Lemma parseSearchResults_records (limit : Z) (records : list JsVal) (record : JsVal) :
  parseSearchResults dollar limit = Normal records →
  record ∈ records →
  (∃ element, extractSearchResult dollar element = Some record)
  ∨ (∃ element, extractGroupedResult dollar element = Some record)
  ∨ (record = related_record (extractRelatedSearches dollar)
     ∧ extractRelatedSearches dollar ≠ []).
Proof.
  intros Hparse Hin.
  assert (Hfrom : ∀ primary grouped,
            record ∈ take (Z.to_nat limit) (extractable dollar primary grouped)
                     ++ related_part (extractRelatedSearches dollar) →
            (∃ element, extractSearchResult dollar element = Some record)
            ∨ (∃ element, extractGroupedResult dollar element = Some record)
            ∨ (record = related_record (extractRelatedSearches dollar)
               ∧ extractRelatedSearches dollar ≠ [])).
  { intros primary grouped H. apply elem_of_app in H as [H|H].
    - apply elem_of_take in H as (i & H & _). apply list_elem_of_lookup_2 in H.
      rewrite extractable_extracted in H. apply elem_of_app in H as [H|H];
        apply list_elem_of_omap in H as (element & _ & Hex); eauto.
    - right; right. destruct (extractRelatedSearches dollar); [inversion H|].
      apply list_elem_of_singleton in H. now split. }
  destruct (select dollar ".search-result") as [primary|e] eqn:Hp.
  2:{ rewrite (parseSearchResults_primary_throws dollar limit e Hp) in Hparse. discriminate. }
  rewrite (parseSearchResults_primary_selected dollar limit primary Hp) in Hparse.
  cbn zeta in Hparse.
  destruct (Z.of_nat (length (omap (extractSearchResult dollar) primary)) <? limit).
  - destruct (select dollar ".sr-group .__srgi") as [grouped|]; [|discriminate].
    injection Hparse as <-. eapply Hfrom; eassumption.
  - injection Hparse as <-. apply (Hfrom primary []).
    rewrite extractable_extracted. cbn [omap list_omap]. now rewrite app_nil_r.
Qed.

(** The element a record of a result was made of, and the selection that
    element belongs to. *)
Lemma parseSearchResults_sources (limit : Z) (records : list JsVal) (record : JsVal) :
  parseSearchResults dollar limit = Normal records →
  record ∈ records →
  (∃ primary element,
      select dollar ".search-result" = Normal primary ∧ element ∈ primary
      ∧ extractSearchResult dollar element = Some record)
  ∨ (∃ grouped element,
      select dollar ".sr-group .__srgi" = Normal grouped ∧ element ∈ grouped
      ∧ extractGroupedResult dollar element = Some record)
  ∨ (record = related_record (extractRelatedSearches dollar)
     ∧ extractRelatedSearches dollar ≠ []).
Proof.
  intros Hparse Hin.
  assert (Hrelated : record ∈ related_part (extractRelatedSearches dollar) →
            record = related_record (extractRelatedSearches dollar)
            ∧ extractRelatedSearches dollar ≠ []).
  { intros H. destruct (extractRelatedSearches dollar); [inversion H|].
    apply list_elem_of_singleton in H. now split. }
  assert (Hprimary : ∀ primary k,
            select dollar ".search-result" = Normal primary →
            record ∈ take k (omap (extractSearchResult dollar) primary) →
            ∃ primary element,
              select dollar ".search-result" = Normal primary ∧ element ∈ primary
              ∧ extractSearchResult dollar element = Some record).
  { intros primary k Hp H. apply elem_of_take in H as (i & H & _).
    apply list_elem_of_lookup_2, list_elem_of_omap in H as (element & He & Hex).
    eauto. }
  destruct (select dollar ".search-result") as [primary|e] eqn:Hp.
  2:{ rewrite (parseSearchResults_primary_throws dollar limit e Hp) in Hparse. discriminate. }
  rewrite (parseSearchResults_primary_selected dollar limit primary Hp) in Hparse.
  cbn zeta in Hparse.
  destruct (Z.of_nat (length (omap (extractSearchResult dollar) primary)) <? limit).
  - destruct (select dollar ".sr-group .__srgi") as [grouped|] eqn:Hg; [|discriminate].
    injection Hparse as <-. apply elem_of_app in Hin as [Hin|Hin]; [|auto].
    apply elem_of_take in Hin as (i & Hin & _). apply list_elem_of_lookup_2 in Hin.
    rewrite extractable_extracted in Hin. apply elem_of_app in Hin as [Hin|Hin];
      apply list_elem_of_omap in Hin as (element & He & Hex); [left|right; left]; eauto.
  - injection Hparse as <-. apply elem_of_app in Hin as [Hin|Hin]; [|auto].
    left. eapply Hprimary; [reflexivity | exact Hin].
Qed.

End Records.

End SearchRecords.

(* ================================================================== *)
(** ** The search-result extractor: limit, order, related searches     *)
(* ================================================================== *)

Module SearchClaims.

Import Search SearchSpec SummarizeFacts SearchFacts SearchRecords.

Lemma filter_all {A} (P : A → Prop) `{∀ x, Decision (P x)} (l : list A) :
  Forall P l → filter P l = l.
Proof.
  induction 1 as [|x l Hx _ IH]; [reflexivity|].
  rewrite filter_cons, decide_True by exact Hx. now rewrite IH.
Qed.

Lemma omap_none {A B} (f : A → option B) (l : list A) :
  Forall (λ x, f x = None) l → omap f l = [].
Proof.
  induction 1 as [|x l Hx _ IH]; [reflexivity|]. simpl. now rewrite Hx.
Qed.

Lemma count_t0_with_related (records : list JsVal) (terms : list string) :
  Forall (λ record, is_t 0 record = true) records →
  count_t0 (records ++ related_part terms) = length records.
Proof.
  intros Hall. unfold count_t0. rewrite filter_app, (filter_all _ records Hall).
  destruct terms; cbn; now rewrite app_nil_r.
Qed.

(** C1. For a document that can be traversed and a limit [n >= 1], the
    result is the first [n] records of the extractable elements, that is
    of the elements whose field extraction succeeds and yields both a
    title and a URL (primary ones first, each group in document order), so
    it holds [min n total] records with [t = 0]; and when the related
    spans hold a non-empty term, exactly one [t = 1] record with all the
    terms comes last, whatever [n] is. *)
Theorem C1_limit_order_and_related {Elem : Type} (dollar : CheerioAPI Elem) (n : Z)
    (primary grouped spans : list Elem) (texts : list string) :
  1 ≤ n →
  reads dollar primary grouped spans texts →
  ∃ records,
    parseSearchResults dollar n = Normal (records ++ related_part (related_terms texts))
    ∧ records = take (Z.to_nat n) (extractable dollar primary grouped)
    ∧ Forall (λ record, is_t 0 record = true) records
    ∧ Z.of_nat (count_t0 (records ++ related_part (related_terms texts)))
      = Z.min n (Z.of_nat (length (extractable dollar primary grouped)))
    ∧ (related_terms texts ≠ [] →
       related_part (related_terms texts) = [related_record (related_terms texts)]
       ∧ is_t 1 (related_record (related_terms texts)) = true)
    ∧ (related_terms texts = [] → related_part (related_terms texts) = []).
Proof.
  intros Hn [Hp Hg Hs Ht].
  exists (take (Z.to_nat n) (extractable dollar primary grouped)).
  assert (Hall : Forall (λ record, is_t 0 record = true)
                   (take (Z.to_nat n) (extractable dollar primary grouped)))
    by apply Forall_take, extractable_is_t0.
  split; [|split; [reflexivity|split; [exact Hall|split; [|split]]]].
  - rewrite (parseSearchResults_selected dollar n primary grouped Hp Hg).
    rewrite (extractRelatedSearches_selected dollar spans Hs).
    now rewrite (terms_before_throw_reads dollar spans texts Ht).
  - rewrite count_t0_with_related by exact Hall. rewrite length_take. lia.
  - intros Hne. destruct (related_terms texts); [congruence|]. split; reflexivity.
  - now intros ->.
Qed.

(** The fixture can be traversed. *)
Lemma fixture_reads :
  reads (Dom.api Dom.fixture)
    (Dom.selected Dom.fixture ".search-result")
    (Dom.selected Dom.fixture ".sr-group .__srgi")
    (Dom.selected Dom.fixture ".related-searches a span")
    [ "one"; "two"; "three" ].
Proof. split; [reflexivity | reflexivity | reflexivity |]. repeat constructor. Qed.

Lemma C1_witness :
  (1 ≤ 2)
  ∧ ∃ records,
      parseSearchResults (Dom.api Dom.fixture) 2
        = Normal (records ++ [related_record ["one"; "two"; "three"]])
      ∧ length records = 2%nat
      ∧ count_t0 (records ++ [related_record ["one"; "two"; "three"]]) = 2%nat.
Proof.
  split; [lia|].
  destruct (C1_limit_order_and_related (Dom.api Dom.fixture) 2 _ _ _ _
              ltac:(lia) fixture_reads)
    as (records & Hparse & Hrecords & _ & Hcount & _).
  exists records. split; [exact Hparse|]. split.
  - rewrite Hrecords. reflexivity.
  - apply Nat2Z.inj. etransitivity; [exact Hcount | reflexivity].
Defined.

(** C4. Every [t = 0] record of a result has a non-empty [url] and a
    non-empty [title]. An element whose title or link cannot be had makes
    no record: the extractor returns [null] for it without throwing, and the
    loop's callback leaves the results and the count as they were and goes
    on. When no element can be extracted, the call still returns: the
    related-searches record alone, or nothing. *)
Theorem C4_only_complete_records {Elem : Type} (dollar : CheerioAPI Elem) (n : Z) :
  (∀ records record,
      parseSearchResults dollar n = Normal records →
      record ∈ records → is_t 0 record = true →
      ∃ url title,
        get record "url" = JStr url ∧ url ≠ ""
        ∧ get record "title" = JStr title ∧ title ≠ "")
  ∧ (∀ title_selector element,
        (∀ found title_text url,
            find dollar element title_selector = Normal found →
            text_of dollar (first found) = Normal title_text →
            attr_of dollar (first found) "href" = Normal url →
            trim title_text = "" ∨ url = None ∨ url = Some "") →
        or_null_on_throw (extract_try title_selector dollar element) = None)
  ∧ (∀ (extract : Elem → option JsVal) element vars,
        extract element = None → resultCount vars < n →
        result_callback extract n element vars = (Normal true, vars))
  ∧ (∀ primary grouped,
        select dollar ".search-result" = Normal primary →
        select dollar ".sr-group .__srgi" = Normal grouped →
        Forall (λ element, extractSearchResult dollar element = None) primary →
        Forall (λ element, extractGroupedResult dollar element = None) grouped →
        parseSearchResults dollar n
          = Normal (related_part (extractRelatedSearches dollar))).
Proof.
  split; [|split; [|split]].
  - intros records record Hparse Hin Ht.
    destruct (parseSearchResults_records dollar n records record Hparse Hin)
      as [[element Hex]|[[element Hex]|[-> _]]].
    + apply extract_some in Hex as (? & ? & ? & title_text & url & ? & ? & H).
      destruct H as (_ & _ & _ & _ & _ & _ & _ & Htitle & Hurl & ->).
      exists url, (trim title_text). now repeat split.
    + apply extract_some in Hex as (? & ? & ? & title_text & url & ? & ? & H).
      destruct H as (_ & _ & _ & _ & _ & _ & _ & Htitle & Hurl & ->).
      exists url, (trim title_text). now repeat split.
    + discriminate.
  - intros title_selector element. apply extract_none.
  - intros extract element vars Hnone Hlt. unfold result_callback.
    apply Z.leb_gt in Hlt. now rewrite Hlt, Hnone.
  - intros primary grouped Hp Hg Hnp Hng.
    rewrite (parseSearchResults_selected dollar n primary grouped Hp Hg).
    rewrite extractable_extracted.
    rewrite (omap_none _ _ Hnp), (omap_none _ _ Hng). cbn [app].
    now destruct (Z.to_nat n).
Qed.

(** On the fixture whose first result has no link: the records have links
    and titles, and the result is the one of the fixture without that
    element; on the fixture where no result has a link the call returns the
    related searches alone. *)
Lemma C4_witness :
  (∀ record,
      record ∈ [ web_result "https://a.example/" "First" "about a" (JStr "2 days ago");
                 web_result "https://b.example/" "Second" "" JNull;
                 related_record ["one"; "two"; "three"] ] →
      is_t 0 record = true →
      ∃ url title,
        get record "url" = JStr url ∧ url ≠ ""
        ∧ get record "title" = JStr title ∧ title ≠ "")
  ∧ extractSearchResult (Dom.api Dom.fixture_with_gap)
      (Dom.primary_without_href "No link") = None
  ∧ parseSearchResults (Dom.api Dom.fixture_with_gap) 2
    = parseSearchResults (Dom.api Dom.fixture) 2
  ∧ parseSearchResults (Dom.api Dom.fixture_all_fail) 2
    = Normal [related_record ["one"]].
Proof.
  pose proof (C4_only_complete_records (Dom.api Dom.fixture_with_gap) 2)
    as (Hrecords & Hnone & _ & _).
  pose proof (C4_only_complete_records (Dom.api Dom.fixture_all_fail) 2)
    as (_ & _ & _ & Hall).
  split; [|split; [|split]].
  - intros record. apply Hrecords. reflexivity.
  - apply Hnone. intros found title_text url [= <-] [= <-] [= <-]. now right; left.
  - reflexivity.
  - apply (Hall (Dom.selected Dom.fixture_all_fail ".search-result")
                (Dom.selected Dom.fixture_all_fail ".sr-group .__srgi"));
      try reflexivity; repeat constructor.
Defined.



(** C10 (the code at the input where it leaves the claim). On a page whose
    second related span cannot be read, the traversal of the related spans
    throws after the term [one] was collected: the extractor returns that
    term where the claim, and the comment of its [catch] block, have it
    return the empty list, and the result ends with a [t = 1] record. In
    general the extractor returns the terms collected before the throw, so
    the empty list only when the selection itself throws or nothing was
    collected yet. The rest of the claim holds: a throw while the related
    searches are read never fails the call, which returns the [t = 0]
    records followed by the record of the terms kept, if any, while a
    throw of the selection of the primary results fails the call with the
    structure error. *)
Theorem C10_related_failure_keeps_terms :
  ((∃ e, fst (extractRelatedSearches_try Dom.broken_span []) = Throw e)
   ∧ extractRelatedSearches Dom.broken_span = ["one"]
   ∧ parseSearchResults Dom.broken_span 2
     = Normal [ web_result "https://a.example/" "First" "about a" (JStr "2 days ago");
                web_result "https://b.example/" "Second" "" JNull;
                related_record ["one"] ])
  ∧ (∀ {Elem : Type} (dollar : CheerioAPI Elem) (n : Z),
        (∀ e, select dollar ".related-searches a span" = Throw e →
              extractRelatedSearches dollar = [])
        ∧ (∀ spans, select dollar ".related-searches a span" = Normal spans →
                    extractRelatedSearches dollar = terms_before_throw dollar spans)
        ∧ (∀ primary grouped,
              select dollar ".search-result" = Normal primary →
              select dollar ".sr-group .__srgi" = Normal grouped →
              parseSearchResults dollar n
                = Normal (take (Z.to_nat n) (extractable dollar primary grouped)
                          ++ related_part (extractRelatedSearches dollar)))
        ∧ (∀ e, select dollar ".search-result" = Throw e →
                parseSearchResults dollar n = Throw structure_error)).
Proof.
  split.
  - split; [eexists; reflexivity|]. split; reflexivity.
  - intros Elem dollar n. split; [|split; [|split]].
    + apply extractRelatedSearches_select_throws.
    + apply extractRelatedSearches_selected.
    + apply parseSearchResults_selected.
    + apply parseSearchResults_primary_throws.
Qed.

Lemma C10_witness :
  extractRelatedSearches Dom.related_unselectable = []
  ∧ parseSearchResults Dom.related_unselectable 2
    = Normal [ web_result "https://a.example/" "First" "about a" (JStr "2 days ago");
               web_result "https://b.example/" "Second" "" JNull ]
  ∧ extractRelatedSearches Dom.broken_span = ["one"]
  ∧ parseSearchResults Dom.primary_unselectable 2 = Throw structure_error.
Proof.
  destruct C10_related_failure_keeps_terms as [_ Hgeneral].
  pose proof (Hgeneral _ Dom.related_unselectable 2) as (Hthrows & _ & Hcall & _).
  pose proof (Hgeneral _ Dom.broken_span 2) as (_ & Hkept & _).
  pose proof (Hgeneral _ Dom.primary_unselectable 2) as (_ & _ & _ & Hprimary).
  split; [|split; [|split]].
  - eapply Hthrows. reflexivity.
  - rewrite (Hcall (Dom.selected Dom.fixture ".search-result")
                   (Dom.selected Dom.fixture ".sr-group .__srgi"));
      reflexivity.
  - rewrite (Hkept (Dom.selected Dom.fixture ".related-searches a span")); reflexivity.
  - eapply Hprimary. reflexivity.
Defined.

End SearchClaims.

(* ================================================================== *)
(** ** Properties of [search]                                           *)
(* ================================================================== *)

Module SearchCalls.

Import Search SearchSpec ArgSpec SummarizeFacts SearchFacts SummarizeCalls.

(** A limit that passes the check is a positive integer. *)
Lemma bad_limit_false (limit : JsVal) :
  limit ≠ JUndefined → bad_limit limit = false → positive_integer limit.
Proof.
  intros Hdef Hok. destruct limit as [| | |num| | |]; try discriminate; [congruence|].
  destruct num as [|negative|q]; cbn in Hok.
  - discriminate.
  - now destruct negative.
  - apply orb_false_iff in Hok as [Hle Hint].
    apply negb_false_iff, Qle_bool_iff in Hle.
    apply negb_false_iff, Z.eqb_eq in Hint.
    destruct q as [num den]. unfold Qle in Hle. cbn in Hle, Hint.
    apply Z.div_exact in Hint; [|lia].
    exists (num / Z.pos den). split; [nia|].
    exists (Qmake num den). split; [reflexivity|].
    unfold Qeq. cbn. lia.
Qed.

Lemma positive_integer_limit_value (limit : JsVal) :
  limit ≠ JUndefined → bad_limit limit = false → 1 ≤ limit_value limit.
Proof.
  intros Hdef Hok. destruct limit as [| | |num| | |]; try discriminate; [congruence|].
  destruct num as [|negative|q]; cbn in Hok.
  - discriminate.
  - now destruct negative.
  - apply orb_false_iff in Hok as [Hle Hint].
    apply negb_false_iff, Qle_bool_iff in Hle.
    apply negb_false_iff, Z.eqb_eq in Hint.
    destruct q as [num den]. unfold Qle in Hle. cbn in Hle, Hint. cbn.
    apply Z.div_exact in Hint; [|lia]. nia.
Qed.

Lemma parseSearchResults_throws {Elem : Type} (dollar : CheerioAPI Elem) (n : Z)
    (e : Exception) :
  parseSearchResults dollar n = Throw e → e = structure_error.
Proof.
  unfold parseSearchResults, try_catch.
  destruct (fst _); [discriminate | now intros [= <-]].
Qed.

Section Calls.
Context {Elem : Type}
        (load : string → CheerioAPI Elem)
        (encodeURIComponent : string → string)
        (USER_AGENT : string)
        (net : Request → Completion Response).

Local Abbreviation search' := (search load encodeURIComponent USER_AGENT net).
Local Abbreviation request_of query token :=
  (search_request encodeURIComponent USER_AGENT query token).

(** A call whose arguments pass validation sends one request, and what it
    settles as is decided by the response. *)
Lemma search_sends (query token limit : JsVal) :
  acceptable_string query = true →
  acceptable_string token = true →
  bad_limit (limit_of limit) = false →
  run (search' query token limit) =
    (match net (request_of (string_of query) (string_of token)) with
     | Throw e =>
         fst (network_error_handler (A := JsVal) e
                [request_of (string_of query) (string_of token)])
     | Normal response =>
         if ok response then
           match text response with
           | Throw e =>
               fst (network_error_handler (A := JsVal) e
                      [request_of (string_of query) (string_of token)])
           | Normal html =>
               let* results :=
                 parseSearchResults (load html) (limit_value (limit_of limit)) in
               Normal (JObj [("data", JArr results)])
           end
         else if (status response =? 401) || (status response =? 403)
         then Throw (new_Error "Invalid or expired session token")
         else Throw (new_Error ("HTTP " +:+ pretty (status response) +:+ ": "
                                +:+ statusText response))
     end, [request_of (string_of query) (string_of token)]).
Proof.
  intros Hq Htok Hlimit.
  apply acceptable_string_inv in Hq as (q & -> & Hq).
  apply acceptable_string_inv in Htok as (t & -> & Ht).
  cbn [string_of]. set (request := search_request _ _ _ _).
  unfold limit_of in *.
  unfold run, search. cbn [truthy typeof]. rewrite Hq, Ht, String.eqb_refl.
  cbn [negb orb]. rewrite Hlimit.
  unfold try_catchE, bindE, fetch. cbn [app string_of]. fold request.
  destruct (net request) as [response|e] eqn:Enet.
  - unfold check_status. destruct (ok response) eqn:Eok; cbn [negb].
    + unfold resolve, lift.
      destruct (text response) as [html|e] eqn:Etext.
      * destruct (parseSearchResults _ _) as [results|e] eqn:Eparse; cbn [bindC];
          [reflexivity|].
        apply parseSearchResults_throws in Eparse as ->. reflexivity.
      * unfold network_error_handler.
        destruct (is_string (ex_code e) "ENOTFOUND" || is_string (ex_code e) "ECONNREFUSED");
          reflexivity.
    + destruct ((status response =? 401) || (status response =? 403)); reflexivity.
  - unfold network_error_handler.
    destruct (is_string (ex_code e) "ENOTFOUND" || is_string (ex_code e) "ECONNREFUSED");
      reflexivity.
Qed.

Lemma acceptable_string_false (v : JsVal) :
  acceptable_string v = false →
  negb (truthy v) || negb (String.eqb (typeof v) "string") = true.
Proof.
  destruct v as [| |b|n|s| |]; cbn; try reflexivity.
  - now destruct b.
  - now rewrite orb_true_r.
  - now intros ->.
Qed.

Lemma acceptable_string_true (v : JsVal) :
  acceptable_string v = true →
  negb (truthy v) || negb (String.eqb (typeof v) "string") = false.
Proof. intros H. apply acceptable_string_inv in H as (s & -> & Hs). cbn. now rewrite Hs. Qed.

(** Which check of [search] rejects a call, and that it sent nothing. *)
Lemma search_rejects (query token limit : JsVal) :
  (acceptable_string query = false →
   rejected_unsent (run (search' query token limit))
     "Search query is required and must be a string")
  ∧ (acceptable_string query = true → acceptable_string token = false →
     rejected_unsent (run (search' query token limit))
       "Session token is required and must be a string")
  ∧ (acceptable_string query = true → acceptable_string token = true →
     limit ≠ JUndefined → ¬ positive_integer limit →
     rejected_unsent (run (search' query token limit))
       "Limit must be a positive integer").
Proof.
  unfold rejected_unsent, run, search. split; [|split].
  - intros Hq. now rewrite (acceptable_string_false _ Hq).
  - intros Hq Ht.
    now rewrite (acceptable_string_true _ Hq), (acceptable_string_false _ Ht).
  - intros Hq Ht Hdef Hnot.
    rewrite (acceptable_string_true _ Hq), (acceptable_string_true _ Ht).
    destruct (bad_limit (match limit with JUndefined => JInt 10 | _ => limit end)) eqn:E;
      [reflexivity|].
    exfalso. apply Hnot. apply bad_limit_false; [exact Hdef|].
    now destruct limit.
Qed.

End Calls.

End SearchCalls.

(* ================================================================== *)
(** ** The stream parser and the summary: the claims                   *)
(* ================================================================== *)

Module SummarizeClaims.

Import Summarize StreamSpec ArgSpec SummarizeFacts SummarizeCalls.

(** C2 (the code at the input where it leaves the claim). The stream body
    [final:] has one frame, it carries a tag, and nothing follows the tag:
    the candidate of the specification is the empty text, while the code
    falls back to the last frame with its tag. In general: where the
    specification's candidate is not empty the code selects it, and where
    the most recent tagged frame holds nothing but its tag the code takes
    the trimmed last frame as it is. *)
Theorem C2_empty_tagged_frame_falls_back :
  (split_messages "final:" = ["final:"]
   ∧ most_recent_tagged ["final:"] = Some "final:"
   ∧ candidate (split_messages "final:") = ""
   ∧ select_jsonString (split_messages "final:") = Some "final:")
  ∧ (∀ messages,
        messages ≠ [] → candidate messages ≠ "" →
        select_jsonString messages = Some (candidate messages))
  ∧ (∀ messages frame,
        most_recent_tagged messages = Some frame →
        trim (strip_tag (trim frame)) = "" →
        candidate messages = ""
        ∧ select_jsonString messages = Some (trim (List.last messages ""))).
Proof.
  split; [repeat split|]. split.
  - apply select_jsonString_agrees.
  - intros messages frame Hfound Hempty.
    rewrite select_jsonString_cases. unfold candidate. rewrite Hfound, Hempty.
    now split.
Qed.

Lemma C2_witness :
  select_jsonString [ "hi:{}"; "new_message.json:" +:+ Samples.object_text [("md", "X")] ]
    = Some (Samples.object_text [("md", "X")])
  ∧ candidate ["final:"] = ""
  ∧ select_jsonString ["final:"] = Some "final:".
Proof.
  destruct C2_empty_tagged_frame_falls_back as (_ & Hagrees & Hfalls).
  split.
  - rewrite Hagrees; [reflexivity | discriminate | discriminate].
  - apply (Hfalls ["final:"] "final:"); reflexivity.
Defined.

(** C6 (the code at the input where it leaves the claim). A candidate that
    is not JSON makes [JSON.parse] throw a [SyntaxError]; the [catch] block
    then reads [jsonString], which is not in scope there, and the call
    ends with a [ReferenceError] instead of the parse error it builds. The
    1.3.0 revision reports the parse error. *)
Theorem C6_syntax_error_ends_as_reference_error
    (JSON_parse : string → string + JsVal) (message : string) :
  JSON_parse "oops" = inl message →
  parseStreamingSummary JSON_parse "oops"
    = Throw (mkException ReferenceError "jsonString is not defined" JUndefined)
  ∧ Summarize_1_3_0.parseStreamingSummary JSON_parse "oops"
    = Throw (new_Error "Failed to parse summary JSON response").
Proof.
  intros Hparse. split.
  - rewrite parseStreamingSummary_behaviour.
    change (split_messages "oops") with ["oops"]. cbv beta iota.
    change (parse_argument (select_jsonString ["oops"])) with "oops".
    now rewrite Hparse.
  - unfold Summarize_1_3_0.parseStreamingSummary, Summarize_1_3_0.parseStreamingSummary_try.
    change (split_messages "oops") with ["oops"]. cbn [length Nat.eqb nth Nat.sub].
    change (trim (replace_at_start Summarize_1_3_0.re_new_message_json
                    (replace_at_start re_final (trim "oops")))) with "oops".
    cbn [str_truthy negb]. unfold call_JSON_parse. now rewrite Hparse.
Qed.

Lemma C6_witness :
  Samples.JSON_parse "oops" = inl "Unexpected token"
  ∧ parseStreamingSummary Samples.JSON_parse "oops"
    = Throw (mkException ReferenceError "jsonString is not defined" JUndefined).
Proof.
  split; [reflexivity|].
  apply (C6_syntax_error_ends_as_reference_error Samples.JSON_parse "Unexpected token").
  reflexivity.
Defined.

(** The 1.3.0 revision on the same body: the tag is stripped from the last
    frame and the emptiness check fires (the [catch] block of that revision
    then replaces the error by a general one). *)
Lemma parseStreamingSummary_1_3_0_final (JSON_parse : string → string + JsVal) :
  Summarize_1_3_0.parseStreamingSummary_try JSON_parse "final:"
    = Throw (new_Error "Empty summary received")
  ∧ Summarize_1_3_0.parseStreamingSummary JSON_parse "final:"
    = Throw (new_Error "Failed to parse summary response").
Proof. split; reflexivity. Qed.

(** The 1.3.0 revision takes the first of [output_data.markdown] and [md]
    that is neither [undefined] nor [null], and does not read [reply]. *)
Lemma summary_of_1_3_0 (payload : JsVal) :
  Summarize_1_3_0.summary_of payload
    = summary_response
        (first_present [ get (get payload "output_data") "markdown"; get payload "md" ]
                       (JStr "")).
Proof.
  unfold Summarize_1_3_0.summary_of, summary_response, first_present, coalesce, present.
  rewrite !filter_cons, filter_nil.
  destruct (nullish (get (get payload "output_data") "markdown")) eqn:E1; cbn [negb].
  - rewrite decide_False by discriminate.
    destruct (nullish (get payload "md")) eqn:E2; cbn [negb].
    + rewrite decide_False by discriminate. reflexivity.
    + rewrite decide_True by reflexivity. reflexivity.
  - rewrite decide_True by reflexivity. reflexivity.
Qed.

Section Calls.
Context (JSON_parse : string → string + JsVal)
        (Number_toString : JsNum → string)
        (USER_AGENT : string)
        (net : Request → Completion Response).

Local Abbreviation summarize' := (summarize JSON_parse Number_toString USER_AGENT net).
Local Abbreviation request_of input token options :=
  (summary_request USER_AGENT (string_of input) (string_of token)
     (type_of options) (language_of options) (isUrl_of options)).

Lemma ok_2xx (response : Response) : is_2xx (status response) → ok response = true.
Proof. unfold is_2xx, ok. intros [? ?]. apply andb_true_iff. split; now apply Z.leb_le. Qed.

Lemma summary_of_output (payload : JsVal) :
  is_string (get payload "state") "error" = false →
  summary_of Number_toString payload
    = Normal (summary_response (first_truthy (output_fields payload) (JStr ""))).
Proof.
  intros Hstate. unfold summary_of. rewrite Hstate.
  unfold summary_response, first_truthy, output_fields, or_else.
  rewrite !filter_cons, filter_nil.
  destruct (truthy (get payload "md")) eqn:E1.
  { rewrite decide_True by reflexivity. reflexivity. }
  rewrite decide_False by discriminate.
  destruct (truthy (get payload "reply")) eqn:E2.
  { rewrite decide_True by reflexivity. reflexivity. }
  rewrite decide_False by discriminate.
  destruct (truthy (get (get payload "output_data") "markdown")) eqn:E3.
  { rewrite decide_True by reflexivity. reflexivity. }
  rewrite decide_False by discriminate. reflexivity.
Qed.

Lemma summary_of_error (payload : JsVal) :
  is_string (get payload "state") "error" = true →
  summary_of Number_toString payload
    = if truthy (get payload "reply")
      then let* message := ToString Number_toString (get payload "reply") in
           Throw (new_Error message)
      else Throw (new_Error "Unknown summarization error").
Proof.
  intros Hstate. unfold summary_of, or_else. rewrite Hstate.
  now destruct (truthy (get payload "reply")).
Qed.

(** C3 (as amended). For a payload that is not in the error state,
    [summarize] resolves with the first of [md], [reply] and
    [output_data.markdown] that is truthy, and with the empty string when
    none is. *)
Theorem C3_first_truthy_field_wins (input token options : JsVal)
    (response : Response) (streamData : string) (payload : JsVal) :
  acceptable_string input = true →
  acceptable_string token = true →
  one_of ["summary"; "takeaway"] (type_of options) →
  one_of SUPPORTED_LANGUAGES (language_of options) →
  net (request_of input token options) = Normal response →
  is_2xx (status response) →
  text response = Normal streamData →
  parseStreamingSummary JSON_parse streamData = Normal payload →
  is_string (get payload "state") "error" = false →
  run (summarize' input token options)
    = (Normal (summary_response (first_truthy (output_fields payload) (JStr ""))),
       [request_of input token options]).
Proof.
  intros Hin Htok Hty Hlang Hnet H2xx Htext Hparse Hstate.
  rewrite (summarize_sends JSON_parse Number_toString USER_AGENT net
             input token options Hin Htok Hty Hlang).
  cbn zeta. rewrite Hnet, (ok_2xx _ H2xx), Htext, Hparse. cbn [bindC].
  now rewrite (summary_of_output payload Hstate).
Qed.

(** C5 (as amended). For a payload in the error state [summarize] rejects,
    having sent its one request. When the [reply] field is truthy (a
    non-empty string is) the rejection is an [Error] whose message is that
    field converted to a string, and the [TypeError] of the conversion
    when the field has none; when the field is falsy, as the empty string
    is, or missing, the message is "Unknown summarization error". *)
Theorem C5_error_state_rejects (input token options : JsVal)
    (response : Response) (streamData : string) (payload : JsVal) :
  acceptable_string input = true →
  acceptable_string token = true →
  one_of ["summary"; "takeaway"] (type_of options) →
  one_of SUPPORTED_LANGUAGES (language_of options) →
  net (request_of input token options) = Normal response →
  is_2xx (status response) →
  text response = Normal streamData →
  parseStreamingSummary JSON_parse streamData = Normal payload →
  get payload "state" = JStr "error" →
  ∃ error,
    run (summarize' input token options)
      = (Throw error, [request_of input token options])
    ∧ (∀ s, get payload "reply" = JStr s → s ≠ "" → error = new_Error s)
    ∧ (truthy (get payload "reply") = true →
       match ToString Number_toString (get payload "reply") with
       | Normal message => error = new_Error message
       | Throw _ => error = conversion_error
       end)
    ∧ (truthy (get payload "reply") = false →
       error = new_Error "Unknown summarization error").
Proof.
  intros Hin Htok Hty Hlang Hnet H2xx Htext Hparse Hstate.
  rewrite (summarize_sends JSON_parse Number_toString USER_AGENT net
             input token options Hin Htok Hty Hlang).
  cbn zeta. rewrite Hnet, (ok_2xx _ H2xx), Htext, Hparse. cbn [bindC].
  rewrite (summary_of_error payload) by now rewrite Hstate.
  destruct (truthy (get payload "reply")) eqn:Etruthy.
  - destruct (ToString Number_toString (get payload "reply")) as [message|e] eqn:Econv;
      cbn [bindC].
    + exists (new_Error message). split; [reflexivity|]. split; [|now split].
      intros s Hs _. rewrite Hs in Econv. now injection Econv as <-.
    + exists e. split; [reflexivity|]. split; [|split; [|discriminate]].
      * intros s Hs _. rewrite Hs in Econv. discriminate.
      * intros _. now apply (ToString_throws _ _ _ Econv).
  - exists (new_Error "Unknown summarization error"). split; [reflexivity|].
    split; [|now split].
    intros s Hs Hne. rewrite Hs in Etruthy. cbn in Etruthy.
    apply str_truthy_false in Etruthy. contradiction.
Qed.

End Calls.

(** The claim as stated fails for a payload whose [md] is the empty string:
    [md] is present, so it should win, yet the output is the [reply]. *)
Lemma C3_counterexample :
  first_present (output_fields (Samples.object_value [("md", ""); ("reply", "R")])) (JStr "")
    = JStr ""
  ∧ fst (Samples.example_call (Samples.object_text [("md", ""); ("reply", "R")]))
    = Normal (summary_response (JStr "R"))
  ∧ JStr "R" ≠ JStr "".
Proof. split; [reflexivity|]. split; [reflexivity | discriminate]. Qed.

Lemma C3_witness :
  fst (Samples.example_call (Samples.object_text [("reply", "Z")]))
    = Normal (summary_response (JStr "Z")).
Proof.
  unfold Samples.example_call, Samples.example_summarize.
  rewrite (C3_first_truthy_field_wins Samples.JSON_parse Samples.Number_toString "UA"
             _ (JStr "some text") (JStr "token") JUndefined
             (mkResponse 200 "OK" (Normal (Samples.object_text [("reply", "Z")])))
             (Samples.object_text [("reply", "Z")])
             (Samples.object_value [("reply", "Z")])); try reflexivity.
  - exists "summary". split; [reflexivity | now left].
  - exists "EN". split; [reflexivity|]. cbn. tauto.
  - unfold is_2xx. cbn. lia.
Defined.

(** The claim as stated fails for an error payload whose [reply] is the
    empty string: the field is present, yet the message is the generic
    one. *)
Lemma C5_counterexample :
  get (Samples.object_value [("state", "error"); ("reply", "")]) "reply" = JStr ""
  ∧ present (get (Samples.object_value [("state", "error"); ("reply", "")]) "reply") = true
  ∧ fst (Samples.example_call (Samples.object_text [("state", "error"); ("reply", "")]))
    = Throw (new_Error "Unknown summarization error")
  ∧ "Unknown summarization error" ≠ "".
Proof. split; [reflexivity|]. split; [reflexivity|]. split; [reflexivity | discriminate]. Qed.

Lemma C5_witness :
  fst (Samples.example_call
         (Samples.object_text [("state", "error"); ("reply", "quota exceeded")]))
    = Throw (new_Error "quota exceeded")
  ∧ fst (run (summarize (Samples.parsing_to Samples.unprintable_reply)
                Samples.Number_toString "UA" (Samples.answering Samples.answer_200)
                (JStr "some text") (JStr "token") JUndefined))
    = Throw conversion_error.
Proof.
  split.
  2:{ destruct (C5_error_state_rejects (Samples.parsing_to Samples.unprintable_reply)
                  Samples.Number_toString "UA" (Samples.answering Samples.answer_200)
                  (JStr "some text") (JStr "token") JUndefined
                  Samples.answer_200 "<html></html>" Samples.unprintable_reply)
        as (error & Hrun & _ & Htruthy & _);
        [ first [ reflexivity
                | exists "summary"; split; [reflexivity | now left]
                | exists "EN"; split; [reflexivity | cbn; tauto]
                | unfold is_2xx; cbn; lia ] .. | ].
      rewrite Hrun. cbn [fst]. now rewrite (Htruthy eq_refl). }
  unfold Samples.example_call, Samples.example_summarize.
  destruct (C5_error_state_rejects Samples.JSON_parse Samples.Number_toString "UA"
              (Samples.answering
                 (mkResponse 200 "OK"
                    (Normal (Samples.object_text
                               [("state", "error"); ("reply", "quota exceeded")]))))
              (JStr "some text") (JStr "token") JUndefined
              (mkResponse 200 "OK"
                 (Normal (Samples.object_text
                            [("state", "error"); ("reply", "quota exceeded")])))
              (Samples.object_text [("state", "error"); ("reply", "quota exceeded")])
              (Samples.object_value [("state", "error"); ("reply", "quota exceeded")]))
    as (error & Hrun & Hreply & _);
    [ first [ reflexivity
            | exists "summary"; split; [reflexivity | now left]
            | exists "EN"; split; [reflexivity | cbn; tauto]
            | unfold is_2xx; cbn; lia ] .. | ].
  rewrite Hrun. cbn [fst]. now rewrite (Hreply "quota exceeded").
Defined.

End SummarizeClaims.

(* ================================================================== *)
(** ** Validation and HTTP status: the claims on both entry points     *)
(* ================================================================== *)

Module EntryClaims.

Import Search Summarize SearchSpec StreamSpec ArgSpec.
Import SummarizeFacts SummarizeCalls SearchCalls SummarizeClaims.

Section Calls.
Context {Elem : Type}
        (load : string → CheerioAPI Elem)
        (encodeURIComponent : string → string)
        (JSON_parse : string → string + JsVal)
        (Number_toString : JsNum → string)
        (USER_AGENT : string)
        (net : Request → Completion Response).

Local Abbreviation search' := (search load encodeURIComponent USER_AGENT net).
Local Abbreviation summarize' := (summarize JSON_parse Number_toString USER_AGENT net).

Lemma not_includes (allowed : list string) (v : JsVal) :
  ¬ one_of allowed v → includes allowed v = false.
Proof.
  intros Hnot. destruct (includes allowed v) eqn:E; [|reflexivity].
  now apply includes_spec in E.
Qed.

(** Which check of [summarize] rejects a call, and that it sent nothing. *)
Lemma summarize_rejects (input token options : JsVal) :
  (acceptable_string input = false →
   rejected_unsent (run (summarize' input token options))
     "Input is required and must be a string")
  ∧ (acceptable_string input = true → acceptable_string token = false →
     rejected_unsent (run (summarize' input token options))
       "Session token is required and must be a string")
  ∧ (acceptable_string input = true → acceptable_string token = true →
     ¬ one_of ["summary"; "takeaway"] (type_of options) →
     rejected_unsent (run (summarize' input token options))
       "Type must be 'summary' or 'takeaway'")
  ∧ (acceptable_string input = true → acceptable_string token = true →
     one_of ["summary"; "takeaway"] (type_of options) →
     ¬ one_of SUPPORTED_LANGUAGES (language_of options) →
     match ToString Number_toString (language_of options) with
     | Normal code =>
         rejected_unsent (run (summarize' input token options))
           ("Unsupported language code '" +:+ code
            +:+ "'. Supported languages: " +:+ supported_list)
     | Throw _ =>
         run (summarize' input token options) = (Throw conversion_error, [])
     end).
Proof.
  unfold rejected_unsent, run, summarize, type_of, language_of.
  split; [|split; [|split]].
  - intros Hi. now rewrite (acceptable_string_false _ Hi).
  - intros Hi Ht.
    now rewrite (acceptable_string_true _ Hi), (acceptable_string_false _ Ht).
  - intros Hi Ht Hty.
    rewrite (acceptable_string_true _ Hi), (acceptable_string_true _ Ht).
    now rewrite (not_includes _ _ Hty).
  - intros Hi Ht Hty Hlang.
    rewrite (acceptable_string_true _ Hi), (acceptable_string_true _ Ht).
    apply includes_spec in Hty. unfold type_of in Hty.
    rewrite Hty, (not_includes _ _ Hlang). cbn [negb]. unfold bindE, lift.
    destruct (ToString Number_toString _) as [code|e] eqn:Econv; [reflexivity|].
    now rewrite (ToString_throws _ _ _ Econv).
Qed.

Lemma zero_not_positive : ¬ positive_integer (JInt 0).
Proof.
  intros (z & Hz & q & [= <-] & Heq). unfold Qeq in Heq. cbn in Heq. lia.
Qed.

Lemma one_and_a_half_not_positive : ¬ positive_integer (JNum (Finite (Qmake 3 2))).
Proof.
  intros (z & Hz & q & [= <-] & Heq). unfold Qeq in Heq. cbn in Heq. lia.
Qed.

(** C7 (as amended). A call with an invalid argument is rejected by the
    first check it fails, and the log of requests is empty: a query, input
    or token that is missing, not a string or empty; a limit that is given
    and is not a positive integer ([0] and [1.5] among them; an omitted
    limit counts as 10); a summary type that is not one of the two; a
    language that is not in the supported set. The rejection carries the
    message of the check, except for an unsupported language that cannot
    be converted to a string for the message: that call is rejected with
    the [TypeError] of the conversion. *)
Theorem C7_invalid_arguments_rejected_unsent (query input token limit options : JsVal) :
  (acceptable_string query = false →
   rejected_unsent (run (search' query token limit))
     "Search query is required and must be a string")
  ∧ (acceptable_string query = true → acceptable_string token = false →
     rejected_unsent (run (search' query token limit))
       "Session token is required and must be a string")
  ∧ (acceptable_string query = true → acceptable_string token = true →
     limit ≠ JUndefined → ¬ positive_integer limit →
     rejected_unsent (run (search' query token limit))
       "Limit must be a positive integer")
  ∧ (acceptable_string query = true → acceptable_string token = true →
     rejected_unsent (run (search' query token (JInt 0)))
       "Limit must be a positive integer"
     ∧ rejected_unsent (run (search' query token (JNum (Finite (Qmake 3 2)))))
         "Limit must be a positive integer")
  ∧ search' query token JUndefined = search' query token (JInt 10)
  ∧ (acceptable_string input = false →
     rejected_unsent (run (summarize' input token options))
       "Input is required and must be a string")
  ∧ (acceptable_string input = true → acceptable_string token = false →
     rejected_unsent (run (summarize' input token options))
       "Session token is required and must be a string")
  ∧ (acceptable_string input = true → acceptable_string token = true →
     ¬ one_of ["summary"; "takeaway"] (type_of options) →
     rejected_unsent (run (summarize' input token options))
       "Type must be 'summary' or 'takeaway'")
  ∧ (acceptable_string input = true → acceptable_string token = true →
     one_of ["summary"; "takeaway"] (type_of options) →
     ¬ one_of SUPPORTED_LANGUAGES (language_of options) →
     match ToString Number_toString (language_of options) with
     | Normal code =>
         rejected_unsent (run (summarize' input token options))
           ("Unsupported language code '" +:+ code
            +:+ "'. Supported languages: " +:+ supported_list)
     | Throw _ =>
         run (summarize' input token options) = (Throw conversion_error, [])
     end).
Proof.
  pose proof (search_rejects load encodeURIComponent USER_AGENT net query token limit)
    as (Hq & Ht & Hl).
  pose proof (summarize_rejects input token options) as (Si & St & Sty & Sl).
  repeat (split; [assumption|]).
  split; [|split; [reflexivity | repeat (split; [assumption|]); assumption]].
  intros Hquery Htoken. split.
  - apply (search_rejects load encodeURIComponent USER_AGENT net query token (JInt 0));
      [assumption | assumption | discriminate | exact zero_not_positive].
  - apply (search_rejects load encodeURIComponent USER_AGENT net query token
             (JNum (Finite (Qmake 3 2))));
      [assumption | assumption | discriminate | exact one_and_a_half_not_positive].
Qed.

(** C8. Once the arguments are valid and the network answers: a status 401
    or 403 rejects with "Invalid or expired session token"; another status
    outside 200..299 rejects with "HTTP", the status in decimal, a colon and
    the status text; a status in 200..299 hands the body to the parser (a
    body that cannot be read rejects as a failed [fetch] does). One
    request was sent in each case. *)
Theorem C8_status_handling (query input token limit options : JsVal)
    (response : Response) :
  (acceptable_string query = true → acceptable_string token = true →
   bad_limit (limit_of limit) = false →
   net (search_request encodeURIComponent USER_AGENT (string_of query) (string_of token))
     = Normal response →
   ∃ request,
     snd (run (search' query token limit)) = [request]
     ∧ (is_auth_failure (status response) →
        fst (run (search' query token limit))
          = Throw (new_Error "Invalid or expired session token"))
     ∧ (¬ is_2xx (status response) → ¬ is_auth_failure (status response) →
        fst (run (search' query token limit))
          = Throw (new_Error ("HTTP " +:+ pretty (status response) +:+ ": "
                              +:+ statusText response)))
     ∧ (is_2xx (status response) →
        fst (run (search' query token limit))
          = match text response with
            | Normal html =>
                let* results :=
                  parseSearchResults (load html) (limit_value (limit_of limit)) in
                Normal (JObj [("data", JArr results)])
            | Throw e =>
                Throw (if Shapes.connection_failed e then Shapes.network_error else e)
            end))
  ∧ (acceptable_string input = true → acceptable_string token = true →
     one_of ["summary"; "takeaway"] (type_of options) →
     one_of SUPPORTED_LANGUAGES (language_of options) →
     net (summary_request USER_AGENT (string_of input) (string_of token)
            (type_of options) (language_of options) (isUrl_of options))
       = Normal response →
     ∃ request,
       snd (run (summarize' input token options)) = [request]
       ∧ (is_auth_failure (status response) →
          fst (run (summarize' input token options))
            = Throw (new_Error "Invalid or expired session token"))
       ∧ (¬ is_2xx (status response) → ¬ is_auth_failure (status response) →
          fst (run (summarize' input token options))
            = Throw (new_Error ("HTTP " +:+ pretty (status response) +:+ ": "
                                +:+ statusText response)))
       ∧ (is_2xx (status response) →
          fst (run (summarize' input token options))
            = match text response with
              | Normal streamData =>
                  let* payload := parseStreamingSummary JSON_parse streamData in
                  summary_of Number_toString payload
              | Throw e =>
                  Throw (if Shapes.connection_failed e then Shapes.network_error else e)
              end)).
Proof.
  assert (Hauth : is_auth_failure (status response) →
                  ok response = false
                  ∧ (status response =? 401) || (status response =? 403) = true).
  { unfold is_auth_failure, ok. intros [-> | ->]; now split. }
  assert (Hother : ¬ is_2xx (status response) → ¬ is_auth_failure (status response) →
                   ok response = false
                   ∧ (status response =? 401) || (status response =? 403) = false).
  { unfold is_2xx, is_auth_failure, ok. intros H2 Ha. split.
    - apply andb_false_iff.
      destruct (Z.leb_spec 200 (status response)); [right|now left].
      apply Z.leb_gt. lia.
    - apply orb_false_iff. split; apply Z.eqb_neq; lia. }
  split.
  - intros Hq Ht Hl Hnet. eexists.
    rewrite (search_sends load encodeURIComponent USER_AGENT net query token limit Hq Ht Hl).
    rewrite Hnet. cbn [fst snd]. split; [reflexivity|]. split; [|split].
    + intros Ha. destruct (Hauth Ha) as [-> ->]. reflexivity.
    + intros H2 Ha. destruct (Hother H2 Ha) as [-> ->]. reflexivity.
    + intros H2. rewrite (ok_2xx _ H2).
      destruct (text response); [reflexivity | apply handler_result].
  - intros Hi Ht Hty Hlang Hnet. eexists.
    rewrite (summarize_sends JSON_parse Number_toString USER_AGENT net
               input token options Hi Ht Hty Hlang).
    cbn zeta. rewrite Hnet. cbn [fst snd]. split; [reflexivity|]. split; [|split].
    + intros Ha. destruct (Hauth Ha) as [-> ->]. reflexivity.
    + intros H2 Ha. destruct (Hother H2 Ha) as [-> ->]. reflexivity.
    + intros H2. rewrite (ok_2xx _ H2).
      destruct (text response); [reflexivity | apply handler_result].
Qed.

End Calls.

Lemma C7_witness :
  rejected_unsent (Samples.example_search Samples.answer_200 (JStr "") (JStr "token") JUndefined)
    "Search query is required and must be a string"
  ∧ rejected_unsent (Samples.example_search Samples.answer_200 (JStr "kagi") JNull JUndefined)
      "Session token is required and must be a string"
  ∧ rejected_unsent (Samples.example_search Samples.answer_200 (JStr "kagi") (JStr "token") (JInt 0))
      "Limit must be a positive integer"
  ∧ rejected_unsent
      (Samples.example_search Samples.answer_200 (JStr "kagi") (JStr "token") (JNum (Finite (Qmake 3 2))))
      "Limit must be a positive integer"
  ∧ rejected_unsent (Samples.example_search Samples.answer_200 (JStr "kagi") (JStr "token") (JStr "5"))
      "Limit must be a positive integer"
  ∧ rejected_unsent
      (Samples.example_summarize Samples.answer_200 (JStr "text") (JStr "token")
         (JObj [("type", JStr "essay")]))
      "Type must be 'summary' or 'takeaway'"
  ∧ rejected_unsent
      (Samples.example_summarize Samples.answer_200 (JStr "text") (JStr "token")
         (JObj [("language", JStr "XX")]))
      ("Unsupported language code 'XX'. Supported languages: " +:+ supported_list)
  ∧ Samples.example_summarize Samples.answer_200 (JStr "text") (JStr "token")
      (JObj [("language", JObj [("toString", JBool true)])])
    = (Throw conversion_error, []).
Proof.
  pose proof (C7_invalid_arguments_rejected_unsent Samples.load Samples.encodeURIComponent
                Samples.JSON_parse Samples.Number_toString "UA"
                (Samples.answering Samples.answer_200)) as H.
  destruct (H (JStr "") (JStr "text") (JStr "token") JUndefined JUndefined)
    as (Hquery & _).
  destruct (H (JStr "kagi") (JStr "text") JNull JUndefined JUndefined)
    as (_ & Htoken & _).
  destruct (H (JStr "kagi") (JStr "text") (JStr "token") JUndefined JUndefined)
    as (_ & _ & _ & Hzero & _).
  destruct (H (JStr "kagi") (JStr "text") (JStr "token") (JStr "5") JUndefined)
    as (_ & _ & Hlimit & _).
  destruct (H (JStr "kagi") (JStr "text") (JStr "token") JUndefined
              (JObj [("type", JStr "essay")]))
    as (_ & _ & _ & _ & _ & _ & _ & Htype & _).
  destruct (H (JStr "kagi") (JStr "text") (JStr "token") JUndefined
              (JObj [("language", JStr "XX")]))
    as (_ & _ & _ & _ & _ & _ & _ & _ & Hlanguage).
  destruct (H (JStr "kagi") (JStr "text") (JStr "token") JUndefined
              (JObj [("language", JObj [("toString", JBool true)])]))
    as (_ & _ & _ & _ & _ & _ & _ & _ & Hconversion).
  split; [|split; [|split; [|split; [|split; [|split; [|split]]]]]].
  - apply Hquery. reflexivity.
  - apply Htoken; reflexivity.
  - apply Hzero; reflexivity.
  - apply Hzero; reflexivity.
  - apply Hlimit; [reflexivity | reflexivity | discriminate |].
    intros (z & _ & q & Hq & _). discriminate.
  - apply Htype; [reflexivity | reflexivity |].
    intros (s & [= <-] & Hin). cbn in Hin. intuition discriminate.
  - apply Hlanguage; [reflexivity | reflexivity | |].
    + exists "summary". split; [reflexivity | now left].
    + intros (s & [= <-] & Hin). cbn in Hin. intuition discriminate.
  - apply Hconversion; [reflexivity | reflexivity | |].
    + exists "summary". split; [reflexivity | now left].
    + intros (s & Hs & _). discriminate.
Defined.

(** The claim as stated fails for a language whose conversion to a string
    throws: the call is rejected before any request, yet with the
    [TypeError] of the conversion and none of the validation messages. *)
Lemma C7_counterexample :
  language_of Samples.unprintable_language = JObj [("toString", JNull)]
  ∧ ¬ one_of SUPPORTED_LANGUAGES (language_of Samples.unprintable_language)
  ∧ Samples.example_summarize Samples.answer_200 (JStr "text") (JStr "token")
      Samples.unprintable_language
    = (Throw conversion_error, [])
  ∧ ex_class conversion_error = TypeError
  ∧ (∀ message,
       ¬ rejected_unsent
           (Samples.example_summarize Samples.answer_200 (JStr "text") (JStr "token")
              Samples.unprintable_language)
           message).
Proof.
  split; [reflexivity|]. split.
  { intros (s & Hs & _). discriminate. }
  split; [reflexivity|]. split; [reflexivity|].
  intros message. unfold rejected_unsent. discriminate.
Qed.

Lemma C8_witness :
  fst (Samples.example_search (mkResponse 403 "Forbidden" (Normal "")) (JStr "kagi") (JStr "token") JUndefined)
    = Throw (new_Error "Invalid or expired session token")
  ∧ fst (Samples.example_summarize (mkResponse 500 "Internal Server Error" (Normal ""))
           (JStr "text") (JStr "token") JUndefined)
    = Throw (new_Error "HTTP 500: Internal Server Error")
  ∧ fst (Samples.example_search Samples.answer_200 (JStr "kagi") (JStr "token") (JInt 2))
    = let* results := Search.parseSearchResults (Dom.api Dom.fixture) 2 in
      Normal (JObj [("data", JArr results)]).
Proof.
  split; [|split].
  - destruct (C8_status_handling Samples.load Samples.encodeURIComponent
                Samples.JSON_parse Samples.Number_toString "UA"
                (Samples.answering (mkResponse 403 "Forbidden" (Normal "")))
                (JStr "kagi") (JStr "text") (JStr "token") JUndefined JUndefined
                (mkResponse 403 "Forbidden" (Normal ""))) as [Hsearch _].
    destruct Hsearch as (request & _ & Hauth & _); [reflexivity .. |].
    apply Hauth. now right.
  - destruct (C8_status_handling Samples.load Samples.encodeURIComponent
                Samples.JSON_parse Samples.Number_toString "UA"
                (Samples.answering (mkResponse 500 "Internal Server Error" (Normal "")))
                (JStr "kagi") (JStr "text") (JStr "token") JUndefined JUndefined
                (mkResponse 500 "Internal Server Error" (Normal ""))) as [_ Hsummarize].
    destruct Hsummarize as (request & _ & _ & Hother & _);
      [ first [ reflexivity
              | exists "summary"; split; [reflexivity | now left]
              | exists "EN"; split; [reflexivity | cbn; tauto] ] .. | ].
    apply Hother.
    + unfold is_2xx. cbn. lia.
    + unfold is_auth_failure. cbn. lia.
  - destruct (C8_status_handling Samples.load Samples.encodeURIComponent
                Samples.JSON_parse Samples.Number_toString "UA"
                (Samples.answering Samples.answer_200)
                (JStr "kagi") (JStr "text") (JStr "token") (JInt 2) JUndefined
                Samples.answer_200) as [Hsearch _].
    destruct Hsearch as (request & _ & _ & _ & H2xx); [reflexivity .. |].
    apply H2xx. unfold is_2xx. cbn. lia.
Defined.

End EntryClaims.

(* ================================================================== *)
(** ** Further properties: strings and frames                          *)
(* ================================================================== *)

Module FrameFacts.

Import Summarize StreamSpec Shapes SummarizeFacts.

Lemma trimStart_empty (s : string) : trimStart s = "" ↔ all_space s = true.
Proof.
  unfold all_space. induction s as [|c s IH]; cbn; [tauto|].
  destruct (is_white_space c); cbn; [exact IH|]. split; discriminate.
Qed.

Lemma trimEnd_empty (s : string) : no_leading_space s → trimEnd s = "" → s = "".
Proof.
  destruct s as [|c s]; [reflexivity|]. cbn. intros ->. discriminate.
Qed.

Lemma trim_empty (s : string) : trim s = "" ↔ all_space s = true.
Proof.
  rewrite <- trimStart_empty. unfold trim. split.
  - apply trimEnd_empty, trimStart_no_leading_space.
  - now intros ->.
Qed.

Lemma not_blank_frame (s : string) : str_truthy (trim s) = false ↔ all_space s = true.
Proof. rewrite str_truthy_false. apply trim_empty. Qed.

Lemma split_not_nil (sep : ascii) (s : string) : split sep s ≠ [].
Proof.
  destruct s as [|c s]; cbn; [discriminate|].
  destruct (Ascii.eqb c sep); [discriminate|]. now destruct (split sep s).
Qed.

Lemma split_append (sep : ascii) (a b : string) :
  split sep (a +:+ String sep b) = split sep a ++ split sep b.
Proof.
  induction a as [|c a IH]; simpl.
  - now rewrite Ascii.eqb_refl.
  - rewrite IH. destruct (Ascii.eqb c sep); [reflexivity|].
    pose proof (split_not_nil sep a). now destruct (split sep a).
Qed.

Lemma split_no_NUL (s : string) : no_NUL s = true → split NUL s = [s].
Proof.
  unfold no_NUL. induction s as [|c s IH]; cbn; [reflexivity|].
  intros H. apply andb_true_iff in H as [Hc Hs]. apply negb_true_iff in Hc.
  rewrite Hc, (IH Hs). reflexivity.
Qed.

(** The frames of a body all hold white space only exactly when the body
    holds NUL bytes and white space only. *)
Lemma split_all_space (s : string) :
  Forall (λ frame, all_space frame = true) (split NUL s) ↔ blank s = true.
Proof.
  unfold blank. induction s as [|c s IH]; cbn.
  - split; [reflexivity | repeat constructor].
  - destruct (Ascii.eqb c NUL) eqn:E; cbn.
    + rewrite <- IH. split; [now inversion 1 | now constructor].
    + pose proof (split_not_nil NUL s) as Hne.
      destruct (split NUL s) as [|w ws]; [contradiction|].
      rewrite andb_true_iff, <- IH. unfold all_space. cbn.
      split.
      * inversion 1 as [|? ? Hhead Htail]; subst.
        apply andb_true_iff in Hhead as [? ?]. split; [assumption | now constructor].
      * intros [Hc Hall]. inversion Hall; subst. constructor; [|assumption].
        now apply andb_true_iff.
Qed.

Lemma split_messages_nil (streamData : string) :
  split_messages streamData = [] ↔ blank streamData = true.
Proof.
  rewrite <- split_all_space. unfold split_messages.
  induction (split NUL streamData) as [|frame frames IH].
  - split; [constructor | reflexivity].
  - rewrite filter_cons. destruct (str_truthy (trim frame)) eqn:E.
    + rewrite decide_True by reflexivity. split; [discriminate|].
      inversion 1 as [|? ? Hframe _]; subst.
      apply not_blank_frame in Hframe. congruence.
    + rewrite decide_False by discriminate. rewrite IH.
      apply not_blank_frame in E. split; [now constructor | now inversion 1].
Qed.

(** The frames of a body that ends with a frame that is not blank. *)
Lemma split_messages_last (earlier frame : string) :
  no_NUL frame = true → str_truthy (trim frame) = true →
  split_messages (earlier +:+ String NUL frame) = split_messages earlier ++ [frame].
Proof.
  intros Hnul Hframe. unfold split_messages.
  rewrite split_append, filter_app, (split_no_NUL frame Hnul).
  rewrite filter_cons, decide_True by exact Hframe. reflexivity.
Qed.

Lemma split_messages_single (frame : string) :
  no_NUL frame = true → str_truthy (trim frame) = true →
  split_messages frame = [frame].
Proof.
  intros Hnul Hframe. unfold split_messages.
  rewrite (split_no_NUL frame Hnul), filter_cons, decide_True by exact Hframe.
  reflexivity.
Qed.

Lemma trimStart_trimEnd (s : string) : trimStart (trimEnd s) = trimEnd (trimStart s).
Proof.
  induction s as [|c s IH]; [reflexivity|]. cbn [trimStart trimEnd].
  destruct (is_white_space c) eqn:E; cbn [andb].
  - destruct (str_truthy (trimEnd s)) eqn:Et; cbn [negb].
    + cbn [trimStart]. now rewrite E.
    + apply str_truthy_false in Et. rewrite Et in IH. now rewrite <- IH.
  - cbn [trimStart trimEnd]. now rewrite E.
Qed.

Lemma trim_trimEnd (s : string) : trim (trimEnd s) = trim s.
Proof. unfold trim. now rewrite trimStart_trimEnd, trimEnd_idempotent. Qed.

Lemma startsWith_append (t x : string) : startsWith (t +:+ x) t = true.
Proof.
  unfold startsWith. induction t as [|c t IH]; simpl; [now destruct x|].
  now destruct (ascii_dec c c).
Qed.

Lemma startsWith_other_head (c c' : ascii) (t s : string) :
  c ≠ c' → startsWith (String c s) (String c' t) = false.
Proof.
  intros Hne. unfold startsWith. simpl. destruct (ascii_dec c' c); congruence.
Qed.

Lemma drop_chars_append (t x : string) : drop_chars (String.length t) (t +:+ x) = x.
Proof. induction t as [|c t IH]; simpl; [reflexivity | exact IH]. Qed.

Lemma strip_tag_append (tag x : string) :
  In tag tags → strip_tag (tag +:+ x) = x.
Proof.
  unfold strip_tag. intros [<- | [<- | []]].
  - rewrite startsWith_append. apply (drop_chars_append "new_message.json:").
  - replace (startsWith ("final:" +:+ x) "new_message.json:") with false
      by (symmetry; apply (startsWith_other_head "f" "n"); discriminate).
    rewrite startsWith_append. apply (drop_chars_append "final:").
Qed.

(** A frame that is a tag followed by a payload: it is tagged, and stripping
    the tag leaves the trimmed payload. *)
Lemma tagged_frame (tag payload : string) :
  In tag tags →
  tagged (tag +:+ payload) = true
  ∧ trim (strip_tag (trim (tag +:+ payload))) = trim payload
  ∧ str_truthy (trim (tag +:+ payload)) = true.
Proof.
  intros Htag.
  assert (Htrim : trim (tag +:+ payload) = tag +:+ trimEnd payload)
    by (destruct Htag as [<- | [<- | []]]; reflexivity).
  rewrite Htrim. split; [|split].
  - unfold tagged. rewrite Htrim.
    destruct Htag as [<- | [<- | []]].
    + now rewrite startsWith_append.
    + rewrite (startsWith_append "final:"). apply orb_true_r.
  - rewrite (strip_tag_append tag _ Htag). apply trim_trimEnd.
  - destruct Htag as [<- | [<- | []]]; reflexivity.
Qed.

End FrameFacts.

(* ================================================================== *)
(** ** Further properties of the stream parsers                        *)
(* ================================================================== *)

Module StreamExtras.

Import Summarize StreamSpec Shapes SummarizeFacts SummarizeCalls FrameFacts.

Section Parsers.
Context (JSON_parse : string → string + JsVal).

Local Abbreviation parse := (parseStreamingSummary JSON_parse).
Local Abbreviation parse_1_3_0 := (Summarize_1_3_0.parseStreamingSummary JSON_parse).

(** What the later revision does once the body holds a frame. *)
Lemma parse_selected_text (streamData : string) :
  blank streamData = false →
  ∃ text,
    select_jsonString (split_messages streamData) = Some text
    ∧ str_truthy text = true
    ∧ parse streamData = parse_selected JSON_parse text.
Proof.
  intros Hblank.
  assert (Hne : split_messages streamData ≠ []).
  { intros Hnil. apply split_messages_nil in Hnil. congruence. }
  destruct (select_jsonString_not_empty (split_messages streamData) Hne)
    as (text & Hsel & Htext).
  { intros frame. apply split_messages_not_blank. }
  exists text. split; [exact Hsel|]. split; [exact Htext|].
  rewrite parseStreamingSummary_behaviour.
  destruct (split_messages streamData) as [|m ms]; [contradiction|].
  now rewrite Hsel.
Qed.

(** A body of NUL bytes and white space, the empty body included, is the
    only one that ends in "No summary data received"; the 1.3.0 revision
    reports it as a general parse failure. *)
Theorem blank_stream_is_no_data (streamData : string) :
  (parse streamData = Throw no_data_error ↔ blank streamData = true)
  ∧ (blank streamData = true →
     parse_1_3_0 streamData = Throw (new_Error "Failed to parse summary response")).
Proof.
  split; [split|].
  - intros Hparse. destruct (blank streamData) eqn:E; [reflexivity|].
    destruct (parse_selected_text streamData E) as (text & _ & _ & Hrun).
    rewrite Hrun in Hparse. unfold parse_selected in Hparse.
    destruct (JSON_parse text); discriminate.
  - intros Hblank. apply split_messages_nil in Hblank.
    rewrite parseStreamingSummary_behaviour. now rewrite Hblank.
  - intros Hblank. apply split_messages_nil in Hblank.
    unfold Summarize_1_3_0.parseStreamingSummary, Summarize_1_3_0.parseStreamingSummary_try.
    now rewrite Hblank.
Qed.

(** The text handed to [JSON.parse] by the later revision is never empty
    and carries no white space at either end, and the call ends as
    [JSON.parse] does on it (a rejection ending in the out-of-scope
    error). *)
Theorem parsed_text_is_trimmed (streamData : string) :
  blank streamData = false →
  ∃ text,
    select_jsonString (split_messages streamData) = Some text
    ∧ text ≠ "" ∧ trim text = text
    ∧ parse streamData = parse_selected JSON_parse text.
Proof.
  intros Hblank.
  destruct (parse_selected_text streamData Hblank) as (text & Hsel & Htext & Hrun).
  exists text. split; [exact Hsel|]. split; [now apply str_truthy_true|].
  split; [|exact Hrun].
  rewrite select_jsonString_cases in Hsel.
  destruct (most_recent_tagged (split_messages streamData)) as [frame|].
  - destruct (str_truthy (trim (strip_tag (trim frame))));
      injection Hsel as <-; apply trim_idempotent.
  - injection Hsel as <-. apply trim_idempotent.
Qed.

(** When the last frame is a tag followed by a payload that is not blank,
    the later revision parses the trimmed payload: no earlier frame, tagged
    or not, has a say. *)
Theorem last_tagged_frame_decides (earlier tag payload : string) :
  In tag tags →
  no_NUL payload = true →
  str_truthy (trim payload) = true →
  parse (earlier +:+ String NUL (tag +:+ payload)) = parse_selected JSON_parse (trim payload).
Proof.
  intros Htag Hnul Hpayload.
  destruct (tagged_frame tag payload Htag) as (Htagged & Hstrip & Hframe).
  assert (Hnul' : no_NUL (tag +:+ payload) = true)
    by (destruct Htag as [<- | [<- | []]]; exact Hnul).
  rewrite parseStreamingSummary_behaviour.
  rewrite (split_messages_last earlier (tag +:+ payload) Hnul' Hframe).
  assert (Hsel : select_jsonString (split_messages earlier ++ [tag +:+ payload])
                 = Some (trim payload)).
  { rewrite select_jsonString_cases. unfold most_recent_tagged.
    rewrite rev_app_distr. cbn [rev app List.find]. rewrite Htagged, Hstrip.
    now rewrite Hpayload. }
  destruct (split_messages earlier ++ [tag +:+ payload]) as [|m ms] eqn:E.
  - now destruct (split_messages earlier).
  - now rewrite Hsel.
Qed.

(** The 1.3.0 revision looks at the last frame only: what precedes a last
    frame that is not blank does not change the outcome. *)
Theorem only_last_frame_counts_1_3_0 (earlier frame : string) :
  no_NUL frame = true →
  str_truthy (trim frame) = true →
  parse_1_3_0 (earlier +:+ String NUL frame) = parse_1_3_0 frame.
Proof.
  intros Hnul Hframe.
  unfold Summarize_1_3_0.parseStreamingSummary, Summarize_1_3_0.parseStreamingSummary_try.
  rewrite (split_messages_last earlier frame Hnul Hframe).
  rewrite (split_messages_single frame Hnul Hframe).
  rewrite !nth_last, last_last. cbn [List.last].
  rewrite length_app. cbn [length].
  replace (length (split_messages earlier) + 1)%nat
    with (S (length (split_messages earlier))) by lia.
  reflexivity.
Qed.

(** The 1.3.0 revision rejects with one of two messages only: the one for a
    text that is not JSON, and a general one for everything else. *)
Theorem two_messages_1_3_0 (streamData : string) (e : Exception) :
  parse_1_3_0 streamData = Throw e →
  e = new_Error "Failed to parse summary JSON response"
  ∨ e = new_Error "Failed to parse summary response".
Proof.
  unfold Summarize_1_3_0.parseStreamingSummary, try_catch.
  destruct (Summarize_1_3_0.parseStreamingSummary_try JSON_parse streamData) as [|e'];
    [discriminate|].
  unfold Summarize_1_3_0.parseStreamingSummary_catch.
  destruct (instanceof_SyntaxError e'); intros [= <-]; [now left | now right].
Qed.

End Parsers.

Lemma blank_stream_witness :
  parseStreamingSummary Samples.JSON_parse "  " = Throw no_data_error
  ∧ Summarize_1_3_0.parseStreamingSummary Samples.JSON_parse "  "
    = Throw (new_Error "Failed to parse summary response").
Proof.
  destruct (blank_stream_is_no_data Samples.JSON_parse "  ") as [[_ Hlater] Hold].
  split; [apply Hlater | apply Hold]; reflexivity.
Defined.

Lemma parsed_text_witness :
  blank "  oops  " = false
  ∧ ∃ text,
      select_jsonString (split_messages "  oops  ") = Some text
      ∧ text ≠ "" ∧ trim text = text.
Proof.
  split; [reflexivity|].
  destruct (parsed_text_is_trimmed Samples.JSON_parse "  oops  " eq_refl)
    as (text & Hsel & Hne & Htrim & _).
  exists text. now repeat split.
Defined.

Lemma last_tagged_frame_witness :
  parseStreamingSummary Samples.JSON_parse
    ("hi:{}" +:+ String NUL ("new_message.json:" +:+ Samples.object_text [("md", "X")]))
  = Normal (Samples.object_value [("md", "X")]).
Proof.
  rewrite (last_tagged_frame_decides Samples.JSON_parse "hi:{}" "new_message.json:"
             (Samples.object_text [("md", "X")]));
    [reflexivity | now left | reflexivity | reflexivity].
Defined.

Lemma only_last_frame_witness :
  Summarize_1_3_0.parseStreamingSummary Samples.JSON_parse
    (("final:" +:+ Samples.object_text [("md", "X")])
     +:+ String NUL (Samples.object_text [("reply", "Z")]))
  = Normal (Samples.object_value [("reply", "Z")]).
Proof.
  rewrite (only_last_frame_counts_1_3_0 Samples.JSON_parse);
    [reflexivity | reflexivity | reflexivity].
Defined.

Lemma two_messages_witness :
  Summarize_1_3_0.parseStreamingSummary Samples.JSON_parse "oops"
    = Throw (new_Error "Failed to parse summary JSON response")
  ∧ (new_Error "Failed to parse summary JSON response"
       = new_Error "Failed to parse summary JSON response"
     ∨ new_Error "Failed to parse summary JSON response"
       = new_Error "Failed to parse summary response").
Proof.
  split; [reflexivity|].
  apply (two_messages_1_3_0 Samples.JSON_parse "oops"). reflexivity.
Defined.

End StreamExtras.

(* ================================================================== *)
(** ** Further properties of the search-result extractor               *)
(* ================================================================== *)

Module SearchExtras.

Import Search SearchSpec Shapes SummarizeFacts FrameFacts SearchFacts SearchRecords.

Section Extractor.
Context {Elem : Type} (dollar : CheerioAPI Elem).

(** A result is a number of [t = 0] records within the limit, followed by
    the related part. *)
Lemma parseSearchResults_shape (n : Z) (records : list JsVal) :
  parseSearchResults dollar n = Normal records →
  ∃ web,
    records = take (Z.to_nat n) web ++ related_part (extractRelatedSearches dollar)
    ∧ Forall (λ record, is_t 0 record = true) web.
Proof.
  intros Hparse.
  destruct (select dollar ".search-result") as [primary|e] eqn:Hp.
  2:{ rewrite (parseSearchResults_primary_throws dollar n e Hp) in Hparse. discriminate. }
  rewrite (parseSearchResults_primary_selected dollar n primary Hp) in Hparse.
  cbn zeta in Hparse.
  destruct (Z.of_nat (length (omap (extractSearchResult dollar) primary)) <? n).
  - destruct (select dollar ".sr-group .__srgi") as [grouped|]; [|discriminate].
    injection Hparse as <-. exists (extractable dollar primary grouped).
    split; [reflexivity | apply extractable_is_t0].
  - injection Hparse as <-. exists (extractable dollar primary []).
    split; [|apply extractable_is_t0].
    rewrite extractable_extracted. cbn [omap list_omap]. now rewrite app_nil_r.
Qed.

Lemma count_t0_shape (n : Z) (web : list JsVal) (terms : list string) :
  Forall (λ record, is_t 0 record = true) web →
  (count_t0 (take (Z.to_nat n) web ++ related_part terms) ≤ Z.to_nat n)%nat
  ∧ (length (take (Z.to_nat n) web ++ related_part terms) ≤ Z.to_nat n + 1)%nat.
Proof.
  intros Hweb. split.
  - rewrite SearchClaims.count_t0_with_related by now apply Forall_take.
    rewrite length_take. lia.
  - rewrite length_app, length_take. destruct terms; cbn [related_part length]; lia.
Qed.

Lemma result_within_limit_shape (n : Z) (records : list JsVal) :
  parseSearchResults dollar n = Normal records →
  (count_t0 records ≤ Z.to_nat n)%nat ∧ (length records ≤ Z.to_nat n + 1)%nat.
Proof.
  intros Hparse.
  destruct (parseSearchResults_shape n records Hparse) as (web & -> & Hweb).
  apply count_t0_shape, Hweb.
Qed.

(** Whatever the document, a result holds at most [n] records with [t = 0]
    and at most one record more; for a limit below 1 it holds no [t = 0]
    record at all. *)
Theorem result_within_limit (n : Z) (records : list JsVal) :
  parseSearchResults dollar n = Normal records →
  (count_t0 records ≤ Z.to_nat n)%nat
  ∧ (length records ≤ Z.to_nat n + 1)%nat
  ∧ (n < 1 → count_t0 records = 0%nat).
Proof.
  intros Hparse.
  destruct (result_within_limit_shape n records Hparse) as [Hcount Hlen].
  split; [exact Hcount|]. split; [exact Hlen|]. lia.
Qed.

(** Raising the limit only appends: the [t = 0] records for a limit are a
    prefix of those for any greater limit, and the related part is the
    same. *)
Theorem greater_limit_extends (n m : Z) (primary grouped : list Elem) :
  select dollar ".search-result" = Normal primary →
  select dollar ".sr-group .__srgi" = Normal grouped →
  n ≤ m →
  ∃ fewer more related,
    parseSearchResults dollar n = Normal (fewer ++ related)
    ∧ parseSearchResults dollar m = Normal (more ++ related)
    ∧ fewer `prefix_of` more
    ∧ Forall (λ record, is_t 0 record = true) more
    ∧ Forall (λ record, is_t 0 record = false) related.
Proof.
  intros Hp Hg Hle.
  exists (take (Z.to_nat n) (extractable dollar primary grouped)),
         (take (Z.to_nat m) (extractable dollar primary grouped)),
         (related_part (extractRelatedSearches dollar)).
  rewrite !(parseSearchResults_selected dollar _ primary grouped Hp Hg).
  split; [reflexivity|]. split; [reflexivity|]. split; [|split].
  - replace (take (Z.to_nat n) (extractable dollar primary grouped))
      with (take (Z.to_nat n) (take (Z.to_nat m) (extractable dollar primary grouped))).
    + apply prefix_take.
    + rewrite take_take. f_equal. lia.
  - apply Forall_take, extractable_is_t0.
  - destruct (extractRelatedSearches dollar); repeat constructor.
Qed.

(** The grouped results are selected only when the primary ones leave the
    limit unreached: a selection that would throw fails the call in that
    case and goes unnoticed otherwise. *)
Theorem grouped_selected_only_below_limit (n : Z) (primary : list Elem) (e : Exception) :
  select dollar ".search-result" = Normal primary →
  select dollar ".sr-group .__srgi" = Throw e →
  (Z.of_nat (length (omap (extractSearchResult dollar) primary)) < n →
   parseSearchResults dollar n = Throw structure_error)
  ∧ (n ≤ Z.of_nat (length (omap (extractSearchResult dollar) primary)) →
     parseSearchResults dollar n
       = Normal (take (Z.to_nat n) (omap (extractSearchResult dollar) primary)
                 ++ related_part (extractRelatedSearches dollar))).
Proof.
  intros Hp Hg.
  rewrite (parseSearchResults_primary_selected dollar n primary Hp). cbn zeta.
  rewrite Hg. split; intros Hn.
  - apply Z.ltb_lt in Hn. now rewrite Hn.
  - apply Z.ltb_ge in Hn. now rewrite Hn.
Qed.

Lemma terms_before_throw_trimmed (spans : list Elem) (term : string) :
  term ∈ terms_before_throw dollar spans → term ≠ "" ∧ trim term = term.
Proof.
  induction spans as [|span rest IH]; cbn [terms_before_throw]; [inversion 1|].
  destruct (elem_text dollar span) as [t|]; [|inversion 1].
  intros Hin. apply elem_of_app in Hin as [Hin|Hin]; [|now apply IH].
  destruct (str_truthy (trim t)) eqn:E; [|inversion Hin].
  apply list_elem_of_singleton in Hin as ->.
  split; [now apply str_truthy_true | apply trim_idempotent].
Qed.

(** Every related term is a non-empty string without white space at either
    end, whether or not the traversal threw. *)
Theorem related_terms_are_trimmed (term : string) :
  term ∈ extractRelatedSearches dollar → term ≠ "" ∧ trim term = term.
Proof.
  destruct (select dollar ".related-searches a span") as [spans|e] eqn:Hs.
  - rewrite (extractRelatedSearches_selected dollar spans Hs).
    apply terms_before_throw_trimmed.
  - rewrite (extractRelatedSearches_select_throws dollar e Hs). inversion 1.
Qed.

(** A [t = 0] record of a result was made of an element of one of the two
    selections, read through the title selector of that selection: its
    url is the [href] attribute of the first title link as it stands, its
    title the trimmed text of that link; the snippet and a timestamp carry
    no white space at either end. *)
Theorem record_texts_are_trimmed (n : Z) (records : list JsVal) (record : JsVal) :
  parseSearchResults dollar n = Normal records →
  record ∈ records →
  is_t 0 record = true →
  ∃ selector title_selector elements element links title_text url snippet,
    ((selector = ".search-result" ∧ title_selector = ".__sri_title_link")
     ∨ (selector = ".sr-group .__srgi" ∧ title_selector = ".__srgi-title a"))
    ∧ select dollar selector = Normal elements ∧ element ∈ elements
    ∧ find dollar element title_selector = Normal links
    ∧ text_of dollar (first links) = Normal title_text
    ∧ attr_of dollar (first links) "href" = Normal (Some url)
    ∧ get record "url" = JStr url
    ∧ get record "title" = JStr (trim title_text)
    ∧ trim (trim title_text) = trim title_text
    ∧ get record "snippet" = JStr snippet ∧ trim snippet = snippet
    ∧ (∀ s, get record "published" = JStr s → trim s = s).
Proof.
  intros Hparse Hin Ht.
  assert (Hshape : ∀ title_selector element,
            or_null_on_throw (extract_try title_selector dollar element) = Some record →
            ∃ links title_text url snippet,
              find dollar element title_selector = Normal links
              ∧ text_of dollar (first links) = Normal title_text
              ∧ attr_of dollar (first links) "href" = Normal (Some url)
              ∧ get record "url" = JStr url
              ∧ get record "title" = JStr (trim title_text)
              ∧ trim (trim title_text) = trim title_text
              ∧ get record "snippet" = JStr snippet ∧ trim snippet = snippet
              ∧ (∀ s, get record "published" = JStr s → trim s = s)).
  { intros title_selector element Hex.
    apply extract_some in Hex
      as (found & desc & time & title_text & url & snippet_text & published_text & H).
    destruct H as (Hf & Htext & Hu & _ & _ & _ & _ & _ & _ & ->).
    exists found, title_text, url, (trim snippet_text).
    unfold web_result. rewrite or_empty_id. cbn [get assoc String.eqb].
    repeat split; try apply trim_idempotent; try assumption.
    intros s. unfold or_null. cbn.
    destruct (str_truthy (trim published_text)); [|discriminate].
    intros [= <-]. apply trim_idempotent. }
  destruct (parseSearchResults_sources dollar n records record Hparse Hin)
    as [(primary & element & Hp & He & Hex)|[(grouped & element & Hg & He & Hex)|[-> _]]].
  - destruct (Hshape _ _ Hex) as (links & title_text & url & snippet & H).
    exists ".search-result", ".__sri_title_link", primary, element,
           links, title_text, url, snippet.
    split; [now left|]. split; [exact Hp|]. split; [exact He | exact H].
  - destruct (Hshape _ _ Hex) as (links & title_text & url & snippet & H).
    exists ".sr-group .__srgi", ".__srgi-title a", grouped, element,
           links, title_text, url, snippet.
    split; [now right|]. split; [exact Hg|]. split; [exact He | exact H].
  - discriminate.
Qed.

End Extractor.

Lemma result_within_limit_witness :
  ∃ records,
    parseSearchResults (Dom.api Dom.fixture) 2 = Normal records
    ∧ (count_t0 records ≤ 2)%nat ∧ (length records ≤ 3)%nat.
Proof.
  destruct (parseSearchResults (Dom.api Dom.fixture) 2) as [records|] eqn:E;
    [|discriminate].
  exists records. split; [reflexivity|].
  destruct (result_within_limit (Dom.api Dom.fixture) 2 records E) as (Hc & Hl & _).
  split; [exact Hc | exact Hl].
Defined.

Lemma greater_limit_witness :
  (1 ≤ 3)
  ∧ ∃ fewer more related,
      parseSearchResults (Dom.api Dom.fixture) 1 = Normal (fewer ++ related)
      ∧ parseSearchResults (Dom.api Dom.fixture) 3 = Normal (more ++ related)
      ∧ fewer `prefix_of` more.
Proof.
  split; [lia|].
  destruct (greater_limit_extends (Dom.api Dom.fixture) 1 3
              (Dom.selected Dom.fixture ".search-result")
              (Dom.selected Dom.fixture ".sr-group .__srgi")
              eq_refl eq_refl ltac:(lia))
    as (fewer & more & related & H1 & H3 & Hprefix & _).
  exists fewer, more, related. now repeat split.
Defined.

Lemma grouped_selected_witness :
  parseSearchResults Dom.grouped_unselectable 3 = Throw structure_error
  ∧ parseSearchResults Dom.grouped_unselectable 2
    = Normal [ web_result "https://a.example/" "First" "about a" (JStr "2 days ago");
               web_result "https://b.example/" "Second" "" JNull;
               related_record ["one"; "two"; "three"] ].
Proof.
  pose proof (grouped_selected_only_below_limit Dom.grouped_unselectable 3
                (Dom.selected Dom.fixture ".search-result")
                (mkException TypeError "Cannot read properties of undefined" JUndefined)
                eq_refl eq_refl) as [Hbelow _].
  pose proof (grouped_selected_only_below_limit Dom.grouped_unselectable 2
                (Dom.selected Dom.fixture ".search-result")
                (mkException TypeError "Cannot read properties of undefined" JUndefined)
                eq_refl eq_refl) as [_ Hreached].
  split.
  - apply Hbelow. apply Z.ltb_lt. vm_compute. reflexivity.
  - rewrite Hreached; [reflexivity | apply Z.leb_le; vm_compute; reflexivity].
Defined.

Lemma related_terms_witness :
  "one" ∈ extractRelatedSearches (Dom.api Dom.fixture)
  ∧ "one" ≠ "" ∧ trim "one" = "one".
Proof.
  assert (Hin : "one" ∈ extractRelatedSearches (Dom.api Dom.fixture)) by left.
  split; [exact Hin|].
  exact (related_terms_are_trimmed (Dom.api Dom.fixture) "one" Hin).
Defined.

Lemma record_texts_witness :
  ∃ title_text,
    get (web_result "https://a.example/" "First" "about a" (JStr "2 days ago")) "title"
      = JStr (trim title_text)
    ∧ trim (trim title_text) = trim title_text.
Proof.
  destruct (record_texts_are_trimmed (Dom.api Dom.fixture) 2
              [ web_result "https://a.example/" "First" "about a" (JStr "2 days ago");
                web_result "https://b.example/" "Second" "" JNull;
                related_record ["one"; "two"; "three"] ]
              (web_result "https://a.example/" "First" "about a" (JStr "2 days ago")))
    as (selector & title_selector & elements & element & links & title_text & url & snippet
        & _ & _ & _ & _ & _ & _ & _ & Htitle & Htrim & _);
    [ reflexivity | left | reflexivity | ].
  exists title_text. now split.
Defined.

End SearchExtras.

(* ================================================================== *)
(** ** Further properties of [search] and [summarize]                   *)
(* ================================================================== *)

Module EntryExtras.

Import Search Summarize SearchSpec StreamSpec ArgSpec Shapes.
Import SummarizeFacts SummarizeCalls SearchCalls SearchExtras.

Section Calls.
Context {Elem : Type}
        (load : string → CheerioAPI Elem)
        (encodeURIComponent : string → string)
        (JSON_parse : string → string + JsVal)
        (Number_toString : JsNum → string)
        (USER_AGENT : string)
        (net : Request → Completion Response).

Local Abbreviation search' := (search load encodeURIComponent USER_AGENT net).
Local Abbreviation summarize' := (summarize JSON_parse Number_toString USER_AGENT net).
Local Abbreviation search_request_of query token :=
  (search_request encodeURIComponent USER_AGENT (string_of query) (string_of token)).
Local Abbreviation summary_request_of input token options :=
  (summary_request USER_AGENT (string_of input) (string_of token)
     (type_of options) (language_of options) (isUrl_of options)).

(** When [fetch] itself throws, the call rejects with the network error if
    the error's [code] is [ENOTFOUND] or [ECONNREFUSED], and with the error
    of [fetch], unchanged, otherwise. *)
Theorem connection_failure_is_reported (query input token limit options : JsVal)
    (e : Exception) :
  (acceptable_string query = true → acceptable_string token = true →
   bad_limit (limit_of limit) = false →
   net (search_request_of query token) = Throw e →
   run (search' query token limit)
     = (Throw (if connection_failed e then network_error else e),
        [search_request_of query token]))
  ∧ (acceptable_string input = true → acceptable_string token = true →
     one_of ["summary"; "takeaway"] (type_of options) →
     one_of SUPPORTED_LANGUAGES (language_of options) →
     net (summary_request_of input token options) = Throw e →
     run (summarize' input token options)
       = (Throw (if connection_failed e then network_error else e),
          [summary_request_of input token options])).
Proof.
  split.
  - intros Hq Ht Hl Hnet.
    rewrite (search_sends load encodeURIComponent USER_AGENT net query token limit Hq Ht Hl).
    now rewrite Hnet, handler_result.
  - intros Hi Ht Hty Hlang Hnet.
    rewrite (summarize_sends JSON_parse Number_toString USER_AGENT net
               input token options Hi Ht Hty Hlang).
    cbn zeta. now rewrite Hnet, handler_result.
Qed.

Lemma search_sent (query token limit : JsVal) :
  (∃ e, run (search' query token limit) = (Throw e, []))
  ∨ (acceptable_string query = true ∧ acceptable_string token = true
     ∧ bad_limit (limit_of limit) = false
     ∧ snd (run (search' query token limit)) = [search_request_of query token]).
Proof.
  pose proof (search_rejects load encodeURIComponent USER_AGENT net query token limit)
    as (Rq & Rt & _).
  destruct (acceptable_string query) eqn:Hq; [|left; eexists; now apply Rq].
  destruct (acceptable_string token) eqn:Ht; [|left; eexists; now apply Rt].
  destruct (bad_limit (limit_of limit)) eqn:Hl.
  - left. eexists. unfold run, search.
    rewrite (acceptable_string_true _ Hq), (acceptable_string_true _ Ht).
    unfold limit_of in Hl. now rewrite Hl.
  - right. repeat split.
    now rewrite (search_sends load encodeURIComponent USER_AGENT net query token limit Hq Ht Hl).
Qed.

Lemma summarize_sent (input token options : JsVal) :
  (∃ e, run (summarize' input token options) = (Throw e, []))
  ∨ (acceptable_string input = true ∧ acceptable_string token = true
     ∧ one_of ["summary"; "takeaway"] (type_of options)
     ∧ one_of SUPPORTED_LANGUAGES (language_of options)
     ∧ snd (run (summarize' input token options))
       = [summary_request_of input token options]).
Proof.
  pose proof (EntryClaims.summarize_rejects JSON_parse Number_toString USER_AGENT net
                input token options) as (Si & St & Sty & Sl).
  destruct (acceptable_string input) eqn:Hi; [|left; eexists; now apply Si].
  destruct (acceptable_string token) eqn:Ht; [|left; eexists; now apply St].
  destruct (includes ["summary"; "takeaway"] (type_of options)) eqn:Hty.
  2:{ left. eexists. apply Sty; try reflexivity.
      intros Hone. apply includes_spec in Hone. congruence. }
  apply includes_spec in Hty.
  destruct (includes SUPPORTED_LANGUAGES (language_of options)) eqn:Hlang.
  2:{ left.
      assert (Hnot : ¬ one_of SUPPORTED_LANGUAGES (language_of options)).
      { intros Hone. apply includes_spec in Hone. congruence. }
      specialize (Sl eq_refl eq_refl Hty Hnot).
      destruct (ToString Number_toString (language_of options)); eexists; exact Sl. }
  apply includes_spec in Hlang.
  right. repeat split; try assumption.
  now rewrite (summarize_sends JSON_parse Number_toString USER_AGENT net
                 input token options Hi Ht Hty Hlang).
Qed.

(** No call sends more than one request, whatever the arguments and
    whatever the network answers; a call that resolves has sent exactly
    one. *)
Theorem one_request_at_most (query input token limit options : JsVal) :
  (length (snd (run (search' query token limit))) ≤ 1)%nat
  ∧ (∀ v, fst (run (search' query token limit)) = Normal v →
          length (snd (run (search' query token limit))) = 1%nat)
  ∧ (length (snd (run (summarize' input token options))) ≤ 1)%nat
  ∧ (∀ v, fst (run (summarize' input token options)) = Normal v →
          length (snd (run (summarize' input token options))) = 1%nat).
Proof.
  destruct (search_sent query token limit) as [[e He]|(_ & _ & _ & Hs)];
    destruct (summarize_sent input token options) as [[e' He']|(_ & _ & _ & _ & Hm)];
    rewrite ?He, ?He', ?Hs, ?Hm; cbn [fst snd length];
    repeat split; try lia; try discriminate; reflexivity.
Qed.

(** The request of [search] does not depend on the limit: the limit is
    applied to the parsed page and never sent. The query travels in the URL
    behind [q=], encoded, and the token in the [Cookie] header. *)
Theorem search_request_ignores_limit (query token limit : JsVal) :
  acceptable_string query = true →
  acceptable_string token = true →
  bad_limit (limit_of limit) = false →
  ∃ request,
    snd (run (search' query token limit)) = [request]
    ∧ snd (run (search' query token JUndefined)) = [request]
    ∧ req_method request = "GET"
    ∧ req_url request
      = "https://kagi.com/html/search?q=" +:+ encodeURIComponent (string_of query)
    ∧ req_headers request
      = [ ("User-Agent", USER_AGENT); ("Cookie", "kagi_session=" +:+ string_of token) ]
    ∧ req_body request = None.
Proof.
  intros Hq Ht Hl. exists (search_request_of query token).
  rewrite (search_sends load encodeURIComponent USER_AGENT net query token limit Hq Ht Hl).
  rewrite (search_sends load encodeURIComponent USER_AGENT net query token JUndefined Hq Ht)
    by reflexivity.
  now repeat split.
Qed.

(** The request of [summarize]: in URL mode a GET whose four query
    parameters carry the input, and no body; otherwise a POST to the path
    with the trailing slash whose form body carries the input, and no query
    parameter. The token travels in the [Cookie] header in both. *)
Theorem summarize_request_by_mode (input token options : JsVal) :
  acceptable_string input = true →
  acceptable_string token = true →
  one_of ["summary"; "takeaway"] (type_of options) →
  one_of SUPPORTED_LANGUAGES (language_of options) →
  ∃ request type language,
    snd (run (summarize' input token options)) = [request]
    ∧ type_of options = JStr type ∧ language_of options = JStr language
    ∧ In ("Cookie", "kagi_session=" +:+ string_of token) (req_headers request)
    ∧ In ("Accept", "application/vnd.kagi.stream") (req_headers request)
    ∧ (truthy (isUrl_of options) = true →
       req_method request = "GET"
       ∧ req_url request = "https://kagi.com/mother/summary_labs"
       ∧ req_searchParams request
         = [ ("url", string_of input); ("stream", "1");
             ("target_language", language); ("summary_type", type) ]
       ∧ req_body request = None)
    ∧ (truthy (isUrl_of options) = false →
       req_method request = "POST"
       ∧ req_url request = "https://kagi.com/mother/summary_labs/"
       ∧ req_searchParams request = []
       ∧ req_body request
         = Some [ ("text", string_of input); ("stream", "1");
                  ("target_language", language); ("summary_type", type) ]
       ∧ In ("Content-Type", "application/x-www-form-urlencoded;charset=UTF-8")
            (req_headers request)).
Proof using JSON_parse Number_toString USER_AGENT net.
  intros Hi Ht Hty Hlang.
  pose proof Hty as (type & Htype & _). pose proof Hlang as (language & Hlanguage & _).
  exists (summary_request_of input token options), type, language.
  rewrite (summarize_sends JSON_parse Number_toString USER_AGENT net
             input token options Hi Ht Hty Hlang).
  cbn zeta. cbn [snd]. split; [reflexivity|]. split; [exact Htype|].
  split; [exact Hlanguage|].
  unfold summary_request. rewrite Htype, Hlanguage. cbn [string_of].
  destruct (truthy (isUrl_of options)); cbn;
    repeat split; try discriminate; auto 10.
Qed.

(** Options that are not given, or that leave a key out, stand for the
    defaults: type [summary], language [EN], text mode. *)
Theorem omitted_options_are_defaults (input token options : JsVal) :
  get (or_else options (JObj [])) "type" = JUndefined →
  get (or_else options (JObj [])) "language" = JUndefined →
  get (or_else options (JObj [])) "isUrl" = JUndefined →
  summarize' input token options = summarize' input token default_options.
Proof.
  intros Htype Hlanguage HisUrl. unfold summarize, option_or_default.
  now rewrite Htype, Hlanguage, HisUrl.
Qed.

(** A call of [search] that was answered 2xx ends in one of three ways. If
    reading the body fails, it rejects as after a failed [fetch]: with the
    network error for the two connection codes, with the error of the read
    otherwise. If the body is read and the parser fails, it rejects with
    the structure error. Otherwise it resolves with an object whose [data]
    holds at most [limit] records with [t = 0] (at most 10 when the limit
    is omitted) and at most one record more. *)
Theorem search_data_within_limit (query token limit : JsVal) (response : Response) :
  acceptable_string query = true →
  acceptable_string token = true →
  bad_limit (limit_of limit) = false →
  net (search_request_of query token) = Normal response →
  is_2xx (status response) →
  (∃ e,
      text response = Throw e
      ∧ fst (run (search' query token limit))
        = Throw (if connection_failed e then network_error else e))
  ∨ (∃ html,
      text response = Normal html
      ∧ parseSearchResults (load html) (limit_value (limit_of limit))
        = Throw structure_error
      ∧ fst (run (search' query token limit)) = Throw structure_error)
  ∨ (∃ html records,
      text response = Normal html
      ∧ parseSearchResults (load html) (limit_value (limit_of limit)) = Normal records
      ∧ fst (run (search' query token limit)) = Normal (JObj [("data", JArr records)])
      ∧ (count_t0 records ≤ Z.to_nat (limit_value (limit_of limit)))%nat
      ∧ (length records ≤ Z.to_nat (limit_value (limit_of limit)) + 1)%nat
      ∧ (limit = JUndefined → (count_t0 records ≤ 10)%nat)).
Proof.
  intros Hq Ht Hl Hnet H2xx.
  rewrite (search_sends load encodeURIComponent USER_AGENT net query token limit Hq Ht Hl).
  rewrite Hnet, (SummarizeClaims.ok_2xx _ H2xx). cbn [fst].
  destruct (text response) as [html|e] eqn:Htext.
  - right.
    destruct (parseSearchResults (load html) (limit_value (limit_of limit)))
      as [records|e] eqn:Hparse; cbn [bindC].
    + right. exists html, records. split; [reflexivity|]. split; [exact Hparse|].
      split; [reflexivity|].
      destruct (result_within_limit_shape _ _ _ Hparse) as [Hcount Hlen].
      split; [exact Hcount|]. split; [exact Hlen|].
      intros ->. exact Hcount.
    + left. exists html. pose proof (parseSearchResults_throws _ _ _ Hparse) as ->.
      split; [reflexivity|]. split; [exact Hparse | reflexivity].
  - left. exists e. split; [reflexivity | apply handler_result].
Qed.

End Calls.

Lemma connection_failure_witness :
  fst (run (search Samples.load Samples.encodeURIComponent "UA"
              (Samples.refusing "ECONNREFUSED") (JStr "kagi") (JStr "token") JUndefined))
    = Throw network_error
  ∧ fst (run (summarize Samples.JSON_parse Samples.Number_toString "UA"
                (Samples.refusing "EPIPE") (JStr "text") (JStr "token") JUndefined))
    = Throw (mkException TypeError "fetch failed" (JStr "EPIPE")).
Proof.
  split.
  - destruct (connection_failure_is_reported Samples.load Samples.encodeURIComponent
                Samples.JSON_parse Samples.Number_toString "UA"
                (Samples.refusing "ECONNREFUSED")
                (JStr "kagi") (JStr "text") (JStr "token") JUndefined JUndefined
                (mkException TypeError "fetch failed" (JStr "ECONNREFUSED")))
      as [Hsearch _].
    rewrite Hsearch; reflexivity.
  - destruct (connection_failure_is_reported Samples.load Samples.encodeURIComponent
                Samples.JSON_parse Samples.Number_toString "UA"
                (Samples.refusing "EPIPE")
                (JStr "kagi") (JStr "text") (JStr "token") JUndefined JUndefined
                (mkException TypeError "fetch failed" (JStr "EPIPE")))
      as [_ Hsummarize].
    rewrite Hsummarize;
      first [ reflexivity
            | exists "summary"; split; [reflexivity | now left]
            | exists "EN"; split; [reflexivity | cbn; tauto] ].
Defined.

Lemma one_request_witness :
  (length (snd (Samples.example_search Samples.answer_200
                  (JStr "kagi") (JStr "token") (JInt 2))) ≤ 1)%nat
  ∧ (length (snd (Samples.example_summarize Samples.answer_200
                    (JStr "") (JStr "token") JUndefined)) ≤ 1)%nat.
Proof.
  destruct (one_request_at_most Samples.load Samples.encodeURIComponent
              Samples.JSON_parse Samples.Number_toString "UA"
              (Samples.answering Samples.answer_200)
              (JStr "kagi") (JStr "") (JStr "token") (JInt 2) JUndefined)
    as (Hsearch & _ & Hsummarize & _).
  split; [exact Hsearch | exact Hsummarize].
Defined.

Lemma search_request_witness :
  ∃ request,
    snd (Samples.example_search Samples.answer_200 (JStr "kagi") (JStr "token") (JInt 3))
      = [request]
    ∧ snd (Samples.example_search Samples.answer_200 (JStr "kagi") (JStr "token") JUndefined)
      = [request]
    ∧ req_url request = "https://kagi.com/html/search?q=kagi"
    ∧ req_headers request = [ ("User-Agent", "UA"); ("Cookie", "kagi_session=token") ].
Proof.
  destruct (search_request_ignores_limit Samples.load Samples.encodeURIComponent "UA"
              (Samples.answering Samples.answer_200)
              (JStr "kagi") (JStr "token") (JInt 3) eq_refl eq_refl eq_refl)
    as (request & Hsent & Hdefault & _ & Hurl & Hheaders & _).
  exists request. repeat split; assumption.
Defined.

Lemma summarize_request_witness :
  ∃ request,
    snd (Samples.example_summarize Samples.answer_200
           (JStr "https://example.com/") (JStr "token") (JObj [("isUrl", JBool true)]))
      = [request]
    ∧ req_method request = "GET"
    ∧ req_searchParams request
      = [ ("url", "https://example.com/"); ("stream", "1");
          ("target_language", "EN"); ("summary_type", "summary") ]
    ∧ req_body request = None.
Proof.
  destruct (summarize_request_by_mode Samples.JSON_parse Samples.Number_toString "UA"
              (Samples.answering Samples.answer_200)
              (JStr "https://example.com/") (JStr "token") (JObj [("isUrl", JBool true)]))
    as (request & type & language & Hsent & Htype & Hlanguage & _ & _ & Hurl & _);
    [ first [ reflexivity
            | exists "summary"; split; [reflexivity | now left]
            | exists "EN"; split; [reflexivity | cbn; tauto] ] .. | ].
  injection Htype as <-. injection Hlanguage as <-.
  destruct (Hurl eq_refl) as (Hmethod & _ & Hparams & Hbody).
  exists request. repeat split; assumption.
Defined.

Lemma omitted_options_witness :
  summarize Samples.JSON_parse Samples.Number_toString "UA"
    (Samples.answering Samples.answer_200) (JStr "text") (JStr "token") JNull
  = summarize Samples.JSON_parse Samples.Number_toString "UA"
      (Samples.answering Samples.answer_200) (JStr "text") (JStr "token") default_options
  ∧ summarize Samples.JSON_parse Samples.Number_toString "UA"
      (Samples.answering Samples.answer_200) (JStr "text") (JStr "token")
      (JObj [("mode", JStr "fast")])
    = summarize Samples.JSON_parse Samples.Number_toString "UA"
        (Samples.answering Samples.answer_200) (JStr "text") (JStr "token") default_options.
Proof.
  split; apply omitted_options_are_defaults; reflexivity.
Defined.

Lemma search_data_witness :
  (∃ records,
      fst (Samples.example_search Samples.answer_200 (JStr "kagi") (JStr "token") JUndefined)
        = Normal (JObj [("data", JArr records)])
      ∧ (count_t0 records ≤ 10)%nat)
  ∧ fst (Samples.example_search (Samples.unreadable_200 "ECONNRESET")
           (JStr "kagi") (JStr "token") JUndefined)
    = Throw (mkException TypeError "terminated" (JStr "ECONNRESET"))
  ∧ fst (Samples.example_search (Samples.unreadable_200 "ECONNREFUSED")
           (JStr "kagi") (JStr "token") JUndefined)
    = Throw network_error.
Proof.
  split; [|split].
  2:{ destruct (search_data_within_limit Samples.load Samples.encodeURIComponent "UA"
                  (Samples.answering (Samples.unreadable_200 "ECONNRESET"))
                  (JStr "kagi") (JStr "token") JUndefined
                  (Samples.unreadable_200 "ECONNRESET")
                  eq_refl eq_refl eq_refl eq_refl)
        as [(e & Hread & Hrun) | [(html & Hread & _) | (html & records & Hread & _)]];
        [ unfold is_2xx; cbn; lia | | discriminate Hread | discriminate Hread ].
      injection Hread as <-. exact Hrun. }
  2:{ destruct (search_data_within_limit Samples.load Samples.encodeURIComponent "UA"
                  (Samples.answering (Samples.unreadable_200 "ECONNREFUSED"))
                  (JStr "kagi") (JStr "token") JUndefined
                  (Samples.unreadable_200 "ECONNREFUSED")
                  eq_refl eq_refl eq_refl eq_refl)
        as [(e & Hread & Hrun) | [(html & Hread & _) | (html & records & Hread & _)]];
        [ unfold is_2xx; cbn; lia | | discriminate Hread | discriminate Hread ].
      injection Hread as <-. exact Hrun. }
  destruct (search_data_within_limit Samples.load Samples.encodeURIComponent "UA"
              (Samples.answering Samples.answer_200)
              (JStr "kagi") (JStr "token") JUndefined Samples.answer_200
              eq_refl eq_refl eq_refl eq_refl)
    as [(e & Hread & _) | [(html & _ & _ & Hfails)
                           | (html & records & _ & _ & Hdata & _ & _ & Hten)]].
  - unfold is_2xx. cbn. lia.
  - discriminate Hread.
  - discriminate Hfails.
  - exists records. split; [exact Hdata | now apply Hten].
Defined.

End EntryExtras.

(* ================================================================== *)
(** ** What a summary resolves with, and the tag patterns              *)
(* ================================================================== *)

Module SummaryExtras.

Import Summarize StreamSpec ArgSpec Shapes.
Import SummarizeFacts SummarizeCalls FrameFacts EntryExtras.

(** The pattern of the later revision leaves its dot unescaped, so on its
    own it would also strip a prefix such as [new_messageXjson:]. The scan
    applies it only to a message that starts with the tag, and there it
    removes the 17 characters of the tag and nothing else, as the escaped
    pattern of the 1.3.0 revision does. *)
Theorem unescaped_dot_is_guarded (msg : string) :
  startsWith msg "new_message.json:" = true →
  replace_at_start Summarize.re_new_message_json msg = drop_chars 17 msg
  ∧ replace_at_start Summarize.re_new_message_json msg
    = replace_at_start Summarize_1_3_0.re_new_message_json msg.
Proof.
  intros Hstarts.
  assert (Hescaped : replace_at_start Summarize_1_3_0.re_new_message_json msg
                     = drop_chars 17 msg).
  { unfold replace_at_start.
    rewrite (match_at_start_prefix _ "new_message.json:" msg);
      [reflexivity | repeat constructor | exact Hstarts]. }
  rewrite Hescaped. split; now apply replace_new_message_json.
Qed.

Lemma unescaped_dot_witness :
  startsWith "new_message.json:{}" "new_message.json:" = true
  ∧ replace_at_start Summarize.re_new_message_json "new_message.json:{}" = "{}"
  ∧ replace_at_start Summarize.re_new_message_json "new_messageXjson:{}" = "{}"
  ∧ replace_at_start Summarize_1_3_0.re_new_message_json "new_messageXjson:{}"
    = "new_messageXjson:{}".
Proof.
  split; [reflexivity|]. split; [|split; reflexivity].
  now destruct (unescaped_dot_is_guarded "new_message.json:{}" eq_refl) as [-> _].
Defined.

Section Calls.
Context (JSON_parse : string → string + JsVal)
        (Number_toString : JsNum → string)
        (USER_AGENT : string)
        (net : Request → Completion Response).

Local Abbreviation summarize' := (summarize JSON_parse Number_toString USER_AGENT net).

Lemma summary_of_resolves (payload v : JsVal) :
  summary_of Number_toString payload = Normal v →
  ∃ output, v = summary_response output ∧ (truthy output = true ∨ output = JStr "").
Proof.
  unfold summary_of, or_else.
  destruct (is_string (get payload "state") "error");
    [destruct (ToString _ _); discriminate|].
  intros [= <-].
  destruct (truthy (get payload "md")) eqn:E1; [eauto|].
  destruct (truthy (get payload "reply")) eqn:E2; [eauto|].
  destruct (truthy (get (get payload "output_data") "markdown")) eqn:E3; eauto.
Qed.

(** Whatever a call of [summarize] resolves with is an object
    [{ data: { output } }] whose [output] is a truthy value of the payload
    or the empty string: never [undefined], [null], [false], [0] or [NaN]. *)
Theorem resolved_summary_shape (input token options v : JsVal) :
  fst (run (summarize' input token options)) = Normal v →
  ∃ output, v = summary_response output ∧ (truthy output = true ∨ output = JStr "").
Proof using JSON_parse Number_toString USER_AGENT net.
  intros Hrun.
  destruct (summarize_sent JSON_parse Number_toString USER_AGENT net input token options)
    as [[e He]|(Hi & Ht & Hty & Hlang & _)].
  { rewrite He in Hrun. discriminate. }
  rewrite (summarize_sends JSON_parse Number_toString USER_AGENT net
             input token options Hi Ht Hty Hlang) in Hrun.
  cbn zeta in Hrun. cbn [fst] in Hrun.
  destruct (net _) as [response|e].
  2:{ rewrite handler_result in Hrun. discriminate. }
  destruct (ok response).
  2:{ destruct ((status response =? 401) || (status response =? 403)); discriminate. }
  destruct (text response) as [streamData|e].
  2:{ rewrite handler_result in Hrun. discriminate. }
  destruct (parseStreamingSummary JSON_parse streamData) as [payload|];
    [|discriminate].
  cbn [bindC] in Hrun. now apply (summary_of_resolves payload).
Qed.

End Calls.

Lemma resolved_summary_witness :
  ∃ output,
    summary_response (JStr "Z") = summary_response output
    ∧ (truthy output = true ∨ output = JStr "").
Proof.
  apply (resolved_summary_shape Samples.JSON_parse Samples.Number_toString "UA"
           (Samples.answering
              (mkResponse 200 "OK" (Normal (Samples.object_text [("reply", "Z")]))))
           (JStr "some text") (JStr "token") JUndefined).
  reflexivity.
Defined.

End SummaryExtras.
